(** * Flex backend: session authentication, registration and leaderboard

    A shallow embedding of [main.py] (the FastAPI application of the Flex
    game backend) and the properties of its authentication path:
    password hashing, bearer-token resolution, session expiry, the user
    lookup chain, registration, login and the leaderboard query.

    Conventions.
    - A Python [str] is the list of its code points (as [Z]).
    - A stored document (a Python [dict] with string keys) is a
      [gmap string value].
    - A handler returns [Ok v] or [Raise e]; [e] is either the
      [HTTPException] the handler raises or [Uncaught], an exception of the
      interpreter (TypeError, ValueError, UnicodeEncodeError) that no
      handler catches.
    - [time.time()] enters as [now], the value of [int(time.time())];
      [secrets.token_urlsafe(32)] enters as the token drawn.
    - Request bodies enter after validation, as the payload records.
    - The document store is available: a failing store call raises before
      any handler logic and is left out. Stored fields hold [None], a
      [bool], an [int], a [str] or a native identifier. *)

From Stdlib Require Import ZArith List Ascii String Permutation Sorted Lia.
From stdpp Require Import base option list gmap strings sorting.

Local Open Scope Z_scope.

(* ===================================================================== *)
(** ** Python built-ins used by the handlers *)
(* ===================================================================== *)

Module Py.

(** A string literal of the source, as code points. *)
Definition lit (s : string) : list Z :=
  map (fun a => Z.of_N (N_of_ascii a)) (list_ascii_of_string s).

(** [str.isspace] on one code point: the characters [str.strip()] removes. *)
Definition isspace (c : Z) : bool :=
  ((9 <=? c) && (c <=? 13)) || ((28 <=? c) && (c <=? 32))
  || (c =? 133) || (c =? 160) || (c =? 5760)
  || ((8192 <=? c) && (c <=? 8202))
  || (c =? 8232) || (c =? 8233) || (c =? 8239) || (c =? 8287) || (c =? 12288).

Fixpoint lstrip (s : list Z) : list Z :=
  match s with
  | c :: s' => if isspace c then lstrip s' else s
  | [] => []
  end.

Definition rstrip (s : list Z) : list Z := rev (lstrip (rev s)).

(** [s.strip()] *)
Definition strip (s : list Z) : list Z := rstrip (lstrip s).

Fixpoint startswith (p s : list Z) : bool :=
  match p, s with
  | [], _ => true
  | a :: p', b :: s' => (a =? b) && startswith p' s'
  | _ :: _, [] => false
  end.

(** Left-to-right scan of [s.replace(old, new)] for a non-empty [old]:
    [skip] counts the characters of a match still to be dropped. *)
Fixpoint replace_scan (old new : list Z) (skip : nat) (s : list Z) : list Z :=
  match s with
  | [] => []
  | c :: s' =>
      match skip with
      | S k => replace_scan old new k s'
      | O =>
          if startswith old s
          then new ++ replace_scan old new (length old - 1) s'
          else c :: replace_scan old new 0 s'
      end
  end.

(** [s.replace(old, new)]: every non-overlapping occurrence, from the left.
    With an empty [old] Python puts [new] around every character. *)
Definition replace (old new s : list Z) : list Z :=
  match old with
  | [] => new ++ flat_map (fun c => c :: new) s
  | _ :: _ => replace_scan old new 0 s
  end.

(** Decimal digits of a string handed to [int()]. *)
Definition digit_of (c : Z) : option Z :=
  if (48 <=? c) && (c <=? 57) then Some (c - 48) else None.

(** Digits with single underscores between them, as [int()] accepts;
    [acc] is the value so far, [prev] tells whether the previous character
    was a digit. *)
Fixpoint int_digits (acc : Z) (prev : bool) (s : list Z) : option Z :=
  match s with
  | [] => if prev then Some acc else None
  | c :: s' =>
      match digit_of c with
      | Some d => int_digits (10 * acc + d) true s'
      | None =>
          if (c =? 95) && prev
          then match s' with
               | [] => None
               | c' :: _ =>
                   match digit_of c' with
                   | Some _ => int_digits acc false s'
                   | None => None
                   end
               end
          else None
      end
  end.

(** The white space [int()] skips around the digits: that of [str.strip()]
    without the separators U+001C to U+001F. *)
Definition int_space (c : Z) : bool :=
  isspace c && negb ((28 <=? c) && (c <=? 31)).

Fixpoint int_lstrip (s : list Z) : list Z :=
  match s with
  | c :: s' => if int_space c then int_lstrip s' else s
  | [] => []
  end.

(** The number of digits of a literal, underscores apart. *)
Definition digit_count (s : list Z) : nat :=
  length (List.filter (fun c => match digit_of c with
                                | Some _ => true
                                | None => false
                                end) s).

(** [int(s)] for a [str]: surrounding white space, an optional sign,
    decimal digits, at most 4300 of them as the interpreter's default
    limit has it ([None]: ValueError). Only the ASCII digits are read; the
    other Unicode decimal digits Python also takes are left out. *)
Definition int_of_str (s : list Z) : option Z :=
  let body := rev (int_lstrip (rev (int_lstrip s))) in
  let digits :=
    match body with
    | 45 :: ds | 43 :: ds => ds
    | ds => ds
    end in
  if (4300 <? digit_count digits)%nat then None
  else
    match body with
    | 45 :: ds => Z.opp <$> int_digits 0 false ds
    | 43 :: ds => int_digits 0 false ds
    | ds => int_digits 0 false ds
    end.

(** Decimal digits of a positive number, most significant first. *)
Fixpoint dec_digits (fuel : nat) (n : Z) (acc : list Z) : list Z :=
  match fuel with
  | O => acc
  | S k =>
      if n <? 10 then (48 + n) :: acc
      else dec_digits k (n / 10) ((48 + n mod 10) :: acc)
  end.

(** [str(n)] for an [int]. *)
Definition str_of_int (n : Z) : list Z :=
  let digits m := dec_digits (S (Z.to_nat (Z.log2 m))) m [] in
  if n <? 0 then 45 :: digits (- n) else digits n.

Definition hex_char (d : Z) : Z := if d <? 10 then 48 + d else 87 + d.

(** [n] written with [k] lower-case hexadecimal digits. *)
Fixpoint hex_digits (k : nat) (n : Z) (acc : list Z) : list Z :=
  match k with
  | O => acc
  | S k' => hex_digits k' (n / 16) (hex_char (n mod 16) :: acc)
  end.

(** UTF-8 bytes of one code point; [None] where [str.encode] raises
    UnicodeEncodeError (a surrogate) or the value is no code point. *)
Definition utf8_char (c : Z) : option (list Z) :=
  if c <? 0 then None
  else if c <? 128 then Some [c]
  else if c <? 2048 then Some [192 + c / 64; 128 + c mod 64]
  else if (55296 <=? c) && (c <=? 57343) then None
  else if c <? 65536 then
    Some [224 + c / 4096; 128 + (c / 64) mod 64; 128 + c mod 64]
  else if c <? 1114112 then
    Some [240 + c / 262144; 128 + (c / 4096) mod 64;
          128 + (c / 64) mod 64; 128 + c mod 64]
  else None.

(** [s.encode("utf-8")] *)
Fixpoint encode_utf8 (s : list Z) : option (list Z) :=
  match s with
  | [] => Some []
  | c :: s' =>
      match utf8_char c, encode_utf8 s' with
      | Some bs, Some rest => Some (bs ++ rest)
      | _, _ => None
      end
  end.

(** [l[:n]] for an [int] [n]: a negative [n] counts from the end. *)
Definition slice_to {A} (l : list A) (n : Z) : list A :=
  if n <? 0 then firstn (Z.to_nat (Z.of_nat (length l) + n)) l
  else firstn (Z.to_nat n) l.

(** Insertion of [x] (with key [k]) into a list in descending key order,
    in front of the first element whose key is not greater. *)
Fixpoint insert_desc {A} (k : Z) (x : A) (l : list (Z * A)) : list (Z * A) :=
  match l with
  | [] => [(k, x)]
  | (k', y) :: l' =>
      if k' <=? k then (k, x) :: l else (k', y) :: insert_desc k x l'
  end.

(** [sorted(l, key=..., reverse=True)] on the list of (key, element) pairs:
    descending keys, elements with equal keys in their original order (the
    built-in sort is stable, also under [reverse]). *)
Fixpoint sorted_desc {A} (l : list (Z * A)) : list (Z * A) :=
  match l with
  | [] => []
  | (k, x) :: l' => insert_desc k x (sorted_desc l')
  end.

End Py.

(* ===================================================================== *)
(** ** [hashlib.sha256] (FIPS 180-4) on byte lists *)
(* ===================================================================== *)

Module SHA256.

Definition w32 (x : Z) : Z := x mod 4294967296.
Definition add32 (x y : Z) : Z := w32 (x + y).
Definition rotr (n x : Z) : Z := w32 (Z.lor (Z.shiftr x n) (Z.shiftl x (32 - n))).
Definition shr (n x : Z) : Z := Z.shiftr x n.
Definition lnot32 (x : Z) : Z := 4294967295 - x.

Definition Ch (x y z : Z) : Z := Z.lxor (Z.land x y) (Z.land (lnot32 x) z).
Definition Maj (x y z : Z) : Z :=
  Z.lxor (Z.lxor (Z.land x y) (Z.land x z)) (Z.land y z).
Definition bsig0 (x : Z) : Z := Z.lxor (Z.lxor (rotr 2 x) (rotr 13 x)) (rotr 22 x).
Definition bsig1 (x : Z) : Z := Z.lxor (Z.lxor (rotr 6 x) (rotr 11 x)) (rotr 25 x).
Definition ssig0 (x : Z) : Z := Z.lxor (Z.lxor (rotr 7 x) (rotr 18 x)) (shr 3 x).
Definition ssig1 (x : Z) : Z := Z.lxor (Z.lxor (rotr 17 x) (rotr 19 x)) (shr 10 x).

(** The first 64 primes. *)
Definition primes : list Z :=
  [ 2; 3; 5; 7; 11; 13; 17; 19; 23; 29; 31; 37; 41; 43; 47; 53;
    59; 61; 67; 71; 73; 79; 83; 89; 97; 101; 103; 107; 109; 113; 127; 131;
    137; 139; 149; 151; 157; 163; 167; 173; 179; 181; 191; 193; 197; 199;
    211; 223; 227; 229; 233; 239; 241; 251; 257; 263; 269; 271; 277; 281;
    283; 293; 307; 311 ].

(** Integer cube root, one bit at a time from bit [bit - 1] down. *)
Fixpoint cube_root (bit : nat) (n r : Z) : Z :=
  match bit with
  | O => r
  | S b =>
      let c := r + 2 ^ Z.of_nat b in
      cube_root b n (if c * c * c <=? n then c else r)
  end.

(** Round constants: the first 32 bits of the fractional parts of the cube
    roots of the first 64 primes. *)
Definition K : list Z :=
  Eval vm_compute in map (fun p => w32 (cube_root 36 (p * 2 ^ 96) 0)) primes.

(** Initial hash value: the first 32 bits of the fractional parts of the
    square roots of the first 8 primes. *)
Definition H0 : list Z :=
  Eval vm_compute in map (fun p => w32 (Z.sqrt (p * 2 ^ 64))) (firstn 8 primes).

(** Padding: a 1 bit, zeros up to 56 mod 64 bytes, the bit length on 8 bytes. *)
Definition be_bytes (k : nat) (n : Z) : list Z :=
  map (fun i => (n / 256 ^ Z.of_nat i) mod 256) (rev (seq 0 k)).

Definition pad (msg : list Z) : list Z :=
  let len := Z.of_nat (length msg) in
  let zeros := Z.to_nat ((55 - len) mod 64) in
  msg ++ [128] ++ repeat 0 zeros ++ be_bytes 8 (8 * len).

(** Big-endian 32-bit words of a byte list (a trailing partial word is
    dropped; padded messages have none). *)
Fixpoint words (bs : list Z) : list Z :=
  match bs with
  | a :: b :: c :: d :: rest =>
      (((a * 256 + b) * 256 + c) * 256 + d) :: words rest
  | _ => []
  end.

(** Blocks of 16 words; [fuel] bounds the number of blocks. *)
Fixpoint blocks (fuel : nat) (ws : list Z) : list (list Z) :=
  match fuel with
  | O => []
  | S k =>
      match ws with
      | [] => []
      | _ => firstn 16 ws :: blocks k (skipn 16 ws)
      end
  end.

Definition nth0 (l : list Z) (i : nat) : Z := nth i l 0.

(** Message schedule, kept in reverse: the head is the latest word. *)
Fixpoint schedule (n : nat) (rw : list Z) : list Z :=
  match n with
  | O => rw
  | S k =>
      let w := add32 (add32 (ssig1 (nth0 rw 1)) (nth0 rw 6))
                     (add32 (ssig0 (nth0 rw 14)) (nth0 rw 15)) in
      schedule k (w :: rw)
  end.

Definition round (st : list Z) (kw : Z * Z) : list Z :=
  match st with
  | [a; b; c; d; e; f; g; h] =>
      let t1 := add32 (add32 (add32 h (bsig1 e)) (add32 (Ch e f g) (fst kw))) (snd kw) in
      let t2 := add32 (bsig0 a) (Maj a b c) in
      [add32 t1 t2; a; b; c; add32 d t1; e; f; g]
  | _ => st
  end.

Fixpoint zip_add (xs ys : list Z) : list Z :=
  match xs, ys with
  | x :: xs', y :: ys' => add32 x y :: zip_add xs' ys'
  | _, _ => []
  end.

Definition compress (h : list Z) (block : list Z) : list Z :=
  let ws := rev (schedule 48 (rev block)) in
  zip_add h (fold_left round (combine K ws) h).

(** The chaining value after the whole padded message. *)
Definition state (msg : list Z) : list Z :=
  let ws := words (pad msg) in
  fold_left compress (blocks (length ws) ws) H0.

(** The digest read as one big-endian number. *)
Definition digest_int (msg : list Z) : Z :=
  fold_left (fun acc x => acc * 4294967296 + x) (state msg) 0.

(** [hashlib.sha256(msg).hexdigest()] *)
Definition hexdigest (msg : list Z) : list Z :=
  Py.hex_digits 64 (digest_int msg) [].

End SHA256.

(* ===================================================================== *)
(** ** Documents and the document store *)
(* ===================================================================== *)

(** The values a stored field holds: [None], [bool], [int], [str] and the
    store's native identifier (an ObjectId, here its number). *)
Inductive value : Type :=
  | VNone
  | VBool (b : bool)
  | VInt (n : Z)
  | VStr (s : list Z)
  | VOid (o : Z).

#[export] Instance value_eq_dec : EqDecision value.
Proof. solve_decision. Defined.

(** A document: a [dict] with string keys. *)
Abbreviation doc := (gmap string value).

(** [d.get(k)] and [d.get(k, dflt)] *)
Definition get (d : doc) (k : string) : value := default VNone (d !! k).
Definition get_or (d : doc) (k : string) (dflt : value) : value :=
  default dflt (d !! k).

(** [int(v)]; [None] stands for the TypeError or ValueError raised. *)
Definition py_int (v : value) : option Z :=
  match v with
  | VInt n => Some n
  | VBool b => Some (if b then 1 else 0)
  | VStr s => Py.int_of_str s
  | VNone | VOid _ => None
  end.

(** [str(v)] *)
Definition py_str (v : value) : list Z :=
  match v with
  | VNone => Py.lit "None"
  | VBool b => if b then Py.lit "True" else Py.lit "False"
  | VInt n => Py.str_of_int n
  | VStr s => s
  | VOid o => Py.hex_digits 24 o []
  end.

(** Truth value of [v] in a condition. *)
Definition truthy (v : value) : bool :=
  match v with
  | VNone => false
  | VBool b => b
  | VInt n => negb (n =? 0)
  | VStr s => match s with [] => false | _ => true end
  | VOid _ => true
  end.

Module Database.

(** A condition on one field of a filter: [{k: v}] or [{k: {"$eq": v}}]. *)
Inductive cond : Type :=
  | Is (v : value)
  | OpEq (v : value).

Definition cond_value (c : cond) : value :=
  match c with Is v | OpEq v => v end.

(** The store: the documents of each collection in insertion order, and the
    next identifier to hand out. *)
Record store : Type := {
  colls : gmap string (list doc);
  next_oid : Z
}.

Definition collection (st : store) (name : string) : list doc :=
  default [] (colls st !! name).

Definition matches (flt : list (string * cond)) (d : doc) : bool :=
  forallb (fun kc => bool_decide (get d (fst kc) = cond_value (snd kc))) flt.

(** Modelled from the spec: [database.get_documents] is not among the
    sources. It is the collaborator's [query(collection, filter, limit) ->
    [doc]]: the documents of the collection whose fields equal the filter's
    values (exact match; an absent field reads as [None]), in insertion
    order, at most [limit] of them. *)
Definition get_documents (st : store) (name : string)
    (flt : list (string * cond)) (limit : option nat) : list doc :=
  let found := List.filter (matches flt) (collection st name) in
  match limit with
  | Some n => firstn n found
  | None => found
  end.

(** Modelled from the spec: [database.create_document] is not among the
    sources. It is the collaborator's [create(collection, doc) -> id]: the
    document is appended to the collection under a fresh native [_id], and
    the identifier comes back in its string form (the [Session] schema
    types [user_id] as [str], and [register] stores the returned value
    there unchanged). *)
Definition create_document (st : store) (name : string) (d : doc)
    : store * value :=
  let oid := next_oid st in
  ({| colls := <[name := collection st name ++ [<["_id" := VOid oid]> d]]> (colls st);
      next_oid := oid + 1 |},
   VStr (py_str (VOid oid))).

End Database.
Import Database.

(* ===================================================================== *)
(** ** Handlers of [main.py] *)
(* ===================================================================== *)

(** What a handler raises. *)
Inductive exn : Type :=
  | HTTPException (status_code : Z) (detail : string)
  | Uncaught.

Inductive result (A : Type) : Type :=
  | Ok (a : A)
  | Raise (e : exn).
Arguments Ok {A} a.
Arguments Raise {A} e.

#[export] Instance exn_eq_dec : EqDecision exn.
Proof. solve_decision. Defined.

#[export] Instance result_eq_dec {A} `{EqDecision A} : EqDecision (result A).
Proof. solve_decision. Defined.

(** Whether a handler returned. *)
Definition succeeds {A} (r : result A) : bool :=
  match r with
  | Ok _ => true
  | Raise _ => false
  end.

#[export] Instance result_bind : MBind result := fun A B k r =>
  match r with
  | Ok a => k a
  | Raise e => Raise e
  end.

(** A built-in that may raise: its exception is not caught. *)
Definition lift {A} (o : option A) : result A :=
  match o with
  | Some a => Ok a
  | None => Raise Uncaught
  end.

(** The error taxonomy of the specification, as the exceptions raised. *)
Definition MissingToken : exn := HTTPException 401 "Missing token".
Definition InvalidSession : exn := HTTPException 401 "Invalid session".
Definition SessionExpired : exn := HTTPException 401 "Session expired".
Definition UserNotFound : exn := HTTPException 401 "User not found".
Definition DuplicateEmail : exn := HTTPException 400 "Email already registered".
Definition InvalidCredentials : exn := HTTPException 401 "Invalid credentials".
Definition InvalidScoreValue : exn := HTTPException 400 "Score must be >= 0".

Definition SESSION_TTL_SECONDS : Z := 60 * 60 * 24 * 7.

Record RegisterPayload : Type := {
  reg_email : list Z;
  reg_display_name : list Z;
  reg_password : list Z
}.

Record LoginPayload : Type := {
  login_email : list Z;
  login_password : list Z
}.

(** The body [{"token": ..., "user": {...}}] of register and login. *)
Record auth_reply : Type := {
  reply_token : list Z;
  reply_user : doc
}.

(** One entry [{"display_name": ..., "value": ...}] of the leaderboard. *)
Record score_entry : Type := {
  entry_name : value;
  entry_value : Z
}.

Section Flex.

(** [PASSWORD_SALT = os.getenv("PASSWORD_SALT", "flex-salt")], read once. *)
Variable PASSWORD_SALT : list Z.

Definition hash_password (password : list Z) : option (list Z) :=
  SHA256.hexdigest <$> Py.encode_utf8 (PASSWORD_SALT ++ password).

Definition verify_password (password : list Z) (password_hash : value)
    : option bool :=
  h ← hash_password password;
  Some (bool_decide (VStr h = password_hash)).

(** The token looked up for a header:
    [authorization.replace("Bearer ", "").strip()] *)
Definition bearer_token (authorization : list Z) : list Z :=
  Py.strip (Py.replace (Py.lit "Bearer ") [] authorization).

(** The three look-ups of the user a session names. *)
Definition find_user (st : store) (sess : doc) : list doc :=
  let user_id := get sess "user_id" in
  let users := get_documents st "flexuser" [("_id", OpEq (get sess "user_id"))] (Some 1%nat) in
  let users :=
    match users with
    | [] => get_documents st "flexuser" [("_id", Is user_id)] (Some 1%nat)
    | _ => users
    end in
  match users with
  | [] =>
      if truthy (get sess "email")
      then get_documents st "flexuser" [("email", Is (get sess "email"))] (Some 1%nat)
      else users
  | _ => users
  end.

Definition get_current_user (st : store) (now : Z)
    (authorization : option (list Z)) : result doc :=
  match authorization with
  | None | Some [] => Raise MissingToken
  | Some (c :: cs) =>
      let token := bearer_token (c :: cs) in
      match get_documents st "session" [("token", Is (VStr token))] (Some 1%nat) with
      | [] => Raise InvalidSession
      | sess :: _ =>
          expires_at ← lift (py_int (get_or sess "expires_at" (VInt 0)));
          if expires_at <? now then Raise SessionExpired
          else
            match find_user st sess with
            | [] => Raise UserNotFound
            | user :: _ => Ok (delete "password_hash" user)
            end
      end
  end.

Definition register (st : store) (now : Z) (token_urlsafe : list Z)
    (payload : RegisterPayload) : result (store * auth_reply) :=
  match get_documents st "flexuser" [("email", Is (VStr (reg_email payload)))] (Some 1%nat) with
  | _ :: _ => Raise DuplicateEmail
  | [] =>
      password_hash ← lift (hash_password (reg_password payload));
      let user_doc : doc :=
        list_to_map
          [ ("email", VStr (reg_email payload));
            ("display_name", VStr (Py.strip (reg_display_name payload)));
            ("password_hash", VStr password_hash);
            ("avatar", VNone);
            ("high_score", VInt 0);
            ("is_active", VBool true) ] in
      let '(st1, user_id) := create_document st "flexuser" user_doc in
      let token := token_urlsafe in
      let expires_at := now + SESSION_TTL_SECONDS in
      let '(st2, _) :=
        create_document st1 "session"
          (list_to_map
             [ ("user_id", user_id);
               ("token", VStr token);
               ("email", VStr (reg_email payload));
               ("expires_at", VInt expires_at) ]) in
      Ok (st2,
          {| reply_token := token;
             reply_user :=
               list_to_map
                 [ ("_id", user_id);
                   ("email", VStr (reg_email payload));
                   ("display_name", VStr (reg_display_name payload));
                   ("high_score", VInt 0) ] |})
  end.

Definition login (st : store) (now : Z) (token_urlsafe : list Z)
    (payload : LoginPayload) : result (store * auth_reply) :=
  match get_documents st "flexuser" [("email", Is (VStr (login_email payload)))] (Some 1%nat) with
  | [] => Raise InvalidCredentials
  | user :: _ =>
      ok ← lift (verify_password (login_password payload)
                    (get_or user "password_hash" (VStr [])));
      if negb ok then Raise InvalidCredentials
      else
        let token := token_urlsafe in
        let expires_at := now + SESSION_TTL_SECONDS in
        let '(st1, _) :=
          create_document st "session"
            (list_to_map
               [ ("user_id", VStr (py_str (get user "_id")));
                 ("token", VStr token);
                 ("email", get user "email");
                 ("expires_at", VInt expires_at) ]) in
        let user_resp : doc :=
          list_to_map
            [ ("_id", VStr (py_str (get user "_id")));
              ("email", get user "email");
              ("display_name", get user "display_name");
              ("high_score", get_or user "high_score" (VInt 0));
              ("avatar", get user "avatar") ] in
        Ok (st1, {| reply_token := token; reply_user := user_resp |})
  end.

(** [GET /me] *)
Definition me (st : store) (now : Z) (authorization : option (list Z))
    : result doc :=
  get_current_user st now authorization.

(** [POST /scores]: the dependency [get_current_user] runs first. *)
Definition submit_score (st : store) (now : Z)
    (authorization : option (list Z)) (value : Z) : result store :=
  user ← get_current_user st now authorization;
  let score_value := value in
  if score_value <? 0 then Raise InvalidScoreValue
  else
    let '(st1, _) :=
      create_document st "score"
        (list_to_map
           [ ("user_id", VStr (py_str (get user "_id")));
             ("display_name", get user "display_name");
             ("value", VInt score_value) ]) in
    Ok st1.

(** The sort key [int(d.get("value", 0))] of a score document. *)
Definition score_key (d : doc) : option Z :=
  py_int (get_or d "value" (VInt 0)).

Definition serialize_score (d : doc) : option score_entry :=
  v ← score_key d;
  Some {| entry_name := get_or d "display_name" (VStr (Py.lit "Player"));
          entry_value := v |}.

(** The documents in leaderboard order:
    [sorted(docs, key=..., reverse=True)[:limit]]; the key is computed for
    every document before any is compared. *)
Definition docs_sorted (docs : list doc) (limit : Z) : option (list doc) :=
  keyed ← mapM (fun d => k ← score_key d; Some (k, d)) docs;
  Some (Py.slice_to (map snd (Py.sorted_desc keyed)) limit).

(** [GET /scores/top?limit=N] *)
Definition top_scores (st : store) (limit : Z) : result (list score_entry) :=
  let docs := get_documents st "score" [] None in
  sorted ← lift (docs_sorted docs limit);
  lift (mapM serialize_score sorted).

End Flex.

(** The salt when the environment sets none. *)
Definition default_salt : list Z := Py.lit "flex-salt".

(* ===================================================================== *)
(** ** Auxiliary definitions for the statements *)
(* ===================================================================== *)

(** The session look-up [get_current_user] makes for a header. *)
Definition session_lookup (st : store) (authorization : list Z) : list doc :=
  get_documents st "session"
    [("token", Is (VStr (bearer_token authorization)))] (Some 1%nat).

(** The integer [get_current_user] compares with the clock. *)
Definition session_expiry (sess : doc) : option Z :=
  py_int (get_or sess "expires_at" (VInt 0)).

(** The first non-empty answer of a chain of look-ups. *)
Fixpoint first_nonempty {A} (answers : list (list A)) : list A :=
  match answers with
  | [] => []
  | [] :: rest => first_nonempty rest
  | found :: _ => found
  end.

(** The look-ups of [find_user], each on its own. *)
Definition users_by_id_eq (st : store) (sess : doc) : list doc :=
  get_documents st "flexuser" [("_id", OpEq (get sess "user_id"))] (Some 1%nat).
Definition users_by_id (st : store) (sess : doc) : list doc :=
  get_documents st "flexuser" [("_id", Is (get sess "user_id"))] (Some 1%nat).
Definition users_by_id_str (st : store) (sess : doc) : list doc :=
  get_documents st "flexuser"
    [("_id", Is (VStr (py_str (get sess "user_id"))))] (Some 1%nat).
Definition users_by_email (st : store) (sess : doc) : list doc :=
  get_documents st "flexuser" [("email", Is (get sess "email"))] (Some 1%nat).

(** The prefix handling as the specification words it: an optional leading
    ["Bearer "] is removed, nothing else. *)
Definition strip_bearer_prefix (authorization : list Z) : list Z :=
  if Py.startswith (Py.lit "Bearer ") authorization
  then skipn 7 authorization
  else authorization.

(** The resolution order as the specification words it: by native id, by
    the id's string form, by the session's email. *)
Definition spec_find_user (st : store) (sess : doc) : list doc :=
  first_nonempty
    [ users_by_id_eq st sess; users_by_id_str st sess; users_by_email st sess ].

(** Strings [str.encode("utf-8")] accepts: Unicode scalar values. *)
Definition scalar (c : Z) : Prop :=
  0 <= c < 1114112 /\ ~ (55296 <= c <= 57343).
Definition well_formed (s : list Z) : Prop := Forall scalar s.

Definition scalarb (c : Z) : bool :=
  (0 <=? c) && (c <? 1114112) && negb ((55296 <=? c) && (c <=? 57343)).

(** Characters of a token that [bearer_token] leaves alone. *)
Definition no_space (s : list Z) : Prop :=
  Forall (fun c => Py.isspace c = false) s.

Definition empty_store : store := {| colls := ∅; next_oid := 0 |}.

(** Stores the handlers themselves build, every token drawn being
    non-empty ([secrets.token_urlsafe(32)] has 43 characters). *)
Inductive issued (salt : list Z) : store -> Prop :=
  | issued_empty : issued salt empty_store
  | issued_register st now tok payload st' reply :
      issued salt st -> tok <> [] ->
      register salt st now tok payload = Ok (st', reply) ->
      issued salt st'
  | issued_login st now tok payload st' reply :
      issued salt st -> tok <> [] ->
      login salt st now tok payload = Ok (st', reply) ->
      issued salt st'
  | issued_score st now authorization v st' :
      issued salt st ->
      submit_score st now authorization v = Ok st' ->
      issued salt st'.

(** Every stored session carries a non-empty token. *)
Definition tokens_nonempty (st : store) : Prop :=
  Forall (fun s : doc => exists t, get s "token" = VStr t /\ t <> [])
         (collection st "session").

(** Descending order of the keys of a keyed list. *)
Definition keys_descending {A} (l : list (Z * A)) : Prop :=
  StronglySorted (fun a b => fst b <= fst a) l.

(** A store holding the given collections. *)
Definition store_of (users sessions scores : list doc) : store :=
  {| colls := list_to_map
       [("flexuser", users); ("session", sessions); ("score", scores)];
     next_oid := 100 |}.

Definition score_doc (name : string) (v : Z) : doc :=
  list_to_map
    [("user_id", VStr (Py.lit "u")); ("display_name", VStr (Py.lit name));
     ("value", VInt v)].

Definition entry (name : string) (v : Z) : score_entry :=
  {| entry_name := VStr (Py.lit name); entry_value := v |}.

(** One registered user, Ann, holding the token ["tok1"] issued at time
    1000. *)
Definition ann : RegisterPayload :=
  {| reg_email := Py.lit "ann@flex.io";
     reg_display_name := Py.lit "Ann";
     reg_password := Py.lit "secret" |}.

Definition ann_store : store :=
  match register default_salt empty_store 1000 (Py.lit "tok1") ann with
  | Ok (st, _) => st
  | Raise _ => empty_store
  end.

(** A session written without [expires_at], and a store holding it. *)
Definition legacy_session : doc :=
  list_to_map
    [("token", VStr (Py.lit "old")); ("user_id", VStr (Py.lit "u1"));
     ("email", VStr (Py.lit "ann@flex.io"))].

Definition legacy_store : store :=
  store_of
    [list_to_map [("_id", VStr (Py.lit "u1")); ("email", VStr (Py.lit "ann@flex.io"))]]
    [legacy_session] [].

(** The user document [register] stored for Ann. *)
Definition ann_user : doc := hd ∅ (collection ann_store "flexuser").

(** A user whose account was switched off, kept in the store. *)
Definition retired_user : doc :=
  list_to_map
    [("_id", VOid 1); ("email", VStr (Py.lit "ann@flex.io"));
     ("display_name", VStr (Py.lit "Ann")); ("password_hash", VStr (Py.lit "x"));
     ("avatar", VNone); ("high_score", VInt 12); ("is_active", VBool false)].

Definition retired_store : store := store_of [retired_user] [] [].

(** A session naming its user by the native identifier while the user
    document keeps the identifier as a string. *)
Definition drift_session : doc :=
  list_to_map
    [("token", VStr (Py.lit "t7")); ("user_id", VOid 7);
     ("expires_at", VInt 5000)].

Definition drift_store : store :=
  store_of
    [list_to_map [("_id", VStr (py_str (VOid 7)));
                  ("email", VStr (Py.lit "bob@flex.io"))]]
    [drift_session] [].

(** A session whose denormalized email is the empty string, next to a user
    document with the same email. *)
Definition blank_session : doc :=
  list_to_map
    [("token", VStr (Py.lit "t0")); ("user_id", VStr (Py.lit "u1"));
     ("email", VStr []); ("expires_at", VInt 5000)].

Definition blank_store : store :=
  store_of
    [list_to_map [("_id", VStr (Py.lit "u2")); ("email", VStr [])]]
    [blank_session] [].

(** Leaderboard order on score documents: both keys convert and the first
    is not smaller. *)
Definition ranked_before (a b : doc) : Prop :=
  exists ka kb, score_key a = Some ka /\ score_key b = Some kb /\ kb <= ka.

(** The score documents of value [k]. *)
Definition has_key (k : Z) (d : doc) : bool :=
  bool_decide (score_key d = Some k).

(** The scores of the specification's example, in submission order. *)
Definition board_store : store :=
  store_of [] []
    [score_doc "A" 50; score_doc "B" 80; score_doc "C" 80; score_doc "D" 10].

(** A score document whose value is null. *)
Definition null_score_store : store :=
  store_of [] []
    [score_doc "A" 50;
     list_to_map [("display_name", VStr (Py.lit "E")); ("value", VNone)]].

(** The player [name] registers with the token [tok], then submits the
    score [v] under it; the store is left as it is if a step fails. *)
Definition joins_and_scores (st : store) (name tok : string) (v : Z) : store :=
  let payload :=
    {| reg_email := Py.lit name ++ Py.lit "@flex.io";
       reg_display_name := Py.lit name;
       reg_password := Py.lit "pw" |} in
  match register default_salt st 1000 (Py.lit tok) payload with
  | Ok (st1, _) =>
      match submit_score st1 1001 (Some (Py.lit "Bearer " ++ Py.lit tok)) v with
      | Ok st2 => st2
      | Raise _ => st1
      end
  | Raise _ => st
  end.

(** The specification's example played through the handlers. *)
Definition played_store : store :=
  joins_and_scores
    (joins_and_scores
       (joins_and_scores (joins_and_scores empty_store "A" "ta" 50) "B" "tb" 80)
       "C" "tc" 80)
    "D" "td" 10.

(** A 32-bit word. *)
Definition word32 (x : Z) : Prop := 0 <= x < 4294967296.

(** The plaintext spelling [i] in binary digits, lowest first. *)
Fixpoint pos_bits (p : positive) : list Z :=
  match p with
  | xH => [49]
  | xO q => 48 :: pos_bits q
  | xI q => 49 :: pos_bits q
  end.

Definition bits (i : Z) : list Z :=
  match i with
  | Z.pos p => pos_bits p
  | _ => []
  end.

(** Every stored user carries a native identifier. *)
Definition ids_native (st : store) : Prop :=
  Forall (fun u : doc => exists o, get u "_id" = VOid o)
         (collection st "flexuser").

(** Every stored score holds a non-negative [int]. *)
Definition scores_valid (st : store) : Prop :=
  Forall (fun d : doc => exists v, d !! "value" = Some (VInt v) /\ 0 <= v)
         (collection st "score").

(** A character of the lower-case hexadecimal alphabet. *)
Definition is_hex (c : Z) : Prop := 48 <= c <= 57 \/ 97 <= c <= 102.

(** The user document [register] hands to the store, under the [_id] the
    store gives it. *)
Definition stored_user (oid : Z) (payload : RegisterPayload) (ph : list Z)
    : doc :=
  <["_id" := VOid oid]>
    (list_to_map
       [ ("email", VStr (reg_email payload));
         ("display_name", VStr (Py.strip (reg_display_name payload)));
         ("password_hash", VStr ph);
         ("avatar", VNone);
         ("high_score", VInt 0);
         ("is_active", VBool true) ]).

(** The session document [register] and [login] hand to the store, under
    the [_id] the store gives it. *)
Definition stored_session (oid : Z) (user_id : value) (tok : list Z)
    (email : value) (expires_at : Z) : doc :=
  <["_id" := VOid oid]>
    (list_to_map
       [ ("user_id", user_id);
         ("token", VStr tok);
         ("email", email);
         ("expires_at", VInt expires_at) ]).

(** Ann's store after she submitted the score 7. *)
Definition ann_scored : store :=
  match submit_score ann_store 1001 (Some (Py.lit "Bearer tok1")) 7 with
  | Ok st => st
  | Raise _ => ann_store
  end.

(** Every stored session names its user by a string. *)
Definition user_ids_strings (st : store) : Prop :=
  Forall (fun s : doc => exists t, get s "user_id" = VStr t)
         (collection st "session").

(* ===================================================================== *)
(** ** Test vectors and basic facts *)
(* ===================================================================== *)

Example sha256_empty :
  SHA256.hexdigest [] =
  Py.lit "e3b0c44298fc1c149afbf4c8996fb92427ae41e4649b934ca495991b7852b855".
Proof. compute_done. Qed.

Example sha256_abc :
  SHA256.hexdigest (Py.lit "abc") =
  Py.lit "ba7816bf8f01cfea414140de5dae2223b00361a396177a9cb410ff61f20015ad".
Proof. compute_done. Qed.

Example sha256_two_blocks :
  SHA256.hexdigest
    (Py.lit "abcdbcdecdefdefgefghfghighijhijkijkljklmklmnlmnomnopnopq") =
  Py.lit "248d6a61d20638b8e5c026930c3e6039a33ce45964ff2167f6ecedd419db06c1".
Proof. compute_done. Qed.

Example hash_password_default :
  hash_password default_salt (Py.lit "hunter2") =
  Some (Py.lit "cf78f6e2edf6e311de85d0e6597a001f6dbb60e5f67fdefcca99345eef6b7e2d").
Proof. compute_done. Qed.

Example bearer_token_plain :
  bearer_token (Py.lit "Bearer abc") = Py.lit "abc".
Proof. reflexivity. Qed.

Example bearer_token_everywhere :
  bearer_token (Py.lit " Bearer aBearer bc Bearer ") = Py.lit "abc".
Proof. reflexivity. Qed.

Example ann_resolves :
  get_current_user ann_store 1000 (Some (Py.lit "Bearer tok1"))
    = Ok (delete "password_hash" ann_user) /\
  get ann_user "display_name" = VStr (Py.lit "Ann").
Proof. split; compute_done. Qed.

Lemma succeeds_ok {A} (r : result A) :
  succeeds r = true -> exists a, r = Ok a.
Proof. destruct r; [eauto | discriminate]. Qed.

(** *** The errors are pairwise distinct *)

Lemma errors_distinct :
  MissingToken <> InvalidSession /\ MissingToken <> SessionExpired /\
  MissingToken <> UserNotFound /\ InvalidSession <> SessionExpired /\
  InvalidSession <> UserNotFound /\ SessionExpired <> UserNotFound /\
  Uncaught <> SessionExpired /\ Uncaught <> InvalidSession /\
  Uncaught <> UserNotFound /\ Uncaught <> MissingToken.
Proof. repeat split; discriminate. Qed.

(** *** Unfolding [get_current_user] *)

Lemma get_current_user_unfold st now h :
  h <> [] ->
  get_current_user st now (Some h) =
  match session_lookup st h with
  | [] => Raise InvalidSession
  | sess :: _ =>
      expires_at ← lift (session_expiry sess);
      if expires_at <? now then Raise SessionExpired
      else match find_user st sess with
           | [] => Raise UserNotFound
           | user :: _ => Ok (delete "password_hash" user)
           end
  end.
Proof. destruct h; [congruence | reflexivity]. Qed.

Lemma get_current_user_live st now h sess rest e :
  h <> [] ->
  session_lookup st h = sess :: rest ->
  session_expiry sess = Some e ->
  get_current_user st now (Some h) =
  if e <? now then Raise SessionExpired
  else match find_user st sess with
       | [] => Raise UserNotFound
       | user :: _ => Ok (delete "password_hash" user)
       end.
Proof.
  intros Hh Hs He. rewrite get_current_user_unfold by assumption.
  rewrite Hs, He. reflexivity.
Qed.

(* ===================================================================== *)
(** ** Session expiry *)
(* ===================================================================== *)

(** C1. When the bearer token of a request matches a stored session whose
    expiry reads as the integer [e], the session is accepted (the request
    does not fail with SessionExpired, it goes on to the user look-up)
    whenever [now <= e], and it fails with SessionExpired exactly when
    [now > e]; at [now = e] the session is still valid. *)
Theorem C1_session_valid_through_expiry st now h sess rest e :
  h <> [] ->
  session_lookup st h = sess :: rest ->
  session_expiry sess = Some e ->
  (now <= e ->
     get_current_user st now (Some h) <> Raise SessionExpired /\
     get_current_user st now (Some h) =
       match find_user st sess with
       | [] => Raise UserNotFound
       | user :: _ => Ok (delete "password_hash" user)
       end) /\
  (get_current_user st now (Some h) = Raise SessionExpired <-> now > e) /\
  (now = e -> get_current_user st now (Some h) <> Raise SessionExpired).
Proof.
  intros Hh Hs He.
  rewrite (get_current_user_live st now h sess rest e Hh Hs He).
  destruct (Z.ltb_spec e now) as [Hlt | Hge].
  - repeat split; intros; try lia; try reflexivity.
  - assert (Hne : match find_user st sess with
                  | [] => Raise UserNotFound
                  | user :: _ => Ok (delete "password_hash" user)
                  end <> Raise SessionExpired).
    { destruct (find_user st sess); discriminate. }
    repeat split; intros; try assumption; try lia; try reflexivity.
    contradiction.
Qed.

(** At the expiry instant itself Ann's session still resolves. *)
Lemma C1_witness :
  get_current_user ann_store 605800 (Some (Py.lit "Bearer tok1"))
    <> Raise SessionExpired.
Proof.
  pose proof (C1_session_valid_through_expiry ann_store 605800
                (Py.lit "Bearer tok1")
                (hd ∅ (session_lookup ann_store (Py.lit "Bearer tok1"))) []
                605800) as H.
  apply H; [discriminate | compute_done | compute_done | reflexivity].
Defined.

(** C9. A stored session without an [expires_at] field reads as expiring at
    0: whenever the clock is past the epoch, a request whose token selects
    it fails with SessionExpired, so it authenticates nothing. *)
Theorem C9_session_without_expiry_rejected st now h sess rest :
  h <> [] ->
  session_lookup st h = sess :: rest ->
  sess !! "expires_at" = None ->
  0 < now ->
  session_expiry sess = Some 0 /\
  get_current_user st now (Some h) = Raise SessionExpired /\
  (forall u, get_current_user st now (Some h) <> Ok u).
Proof.
  intros Hh Hs Hnone Hnow.
  assert (He : session_expiry sess = Some 0).
  { unfold session_expiry, get_or. rewrite Hnone. reflexivity. }
  rewrite (get_current_user_live st now h sess rest 0 Hh Hs He).
  destruct (Z.ltb_spec 0 now); [| lia].
  repeat split; [assumption | discriminate].
Qed.

Lemma C9_witness :
  get_current_user legacy_store 1 (Some (Py.lit "Bearer old"))
    = Raise SessionExpired.
Proof.
  apply (C9_session_without_expiry_rejected legacy_store 1
           (Py.lit "Bearer old") legacy_session []);
    [discriminate | compute_done | compute_done | lia].
Defined.

(* ===================================================================== *)
(** ** The bearer token of a header *)
(* ===================================================================== *)

Lemma firstn_one_nil {A} (l : list A) : firstn 1 l = [] <-> l = [].
Proof. destruct l; simpl; split; congruence. Qed.

Lemma filter_nil_iff {A} (f : A -> bool) (l : list A) :
  List.filter f l = [] <-> Forall (fun x => f x = false) l.
Proof.
  induction l as [| x l IH]; simpl.
  - split; [constructor | reflexivity].
  - destruct (f x) eqn:E.
    + split; [discriminate |]. intros H. inversion H; congruence.
    + rewrite IH. split; [by constructor |]. by inversion 1.
Qed.

(** The look-up finds nothing exactly when no stored session carries the
    token. *)
Lemma session_lookup_nil st h :
  session_lookup st h = [] <->
  Forall (fun s : doc => get s "token" <> VStr (bearer_token h))
         (collection st "session").
Proof.
  unfold session_lookup, get_documents.
  rewrite firstn_one_nil, filter_nil_iff.
  apply Forall_iff. intros s. unfold matches. simpl.
  rewrite andb_true_r. apply bool_decide_eq_false.
Qed.

Lemma resolve_not_missing st now h :
  h <> [] -> get_current_user st now (Some h) <> Raise MissingToken.
Proof.
  intros Hh. rewrite get_current_user_unfold by assumption.
  destruct (session_lookup st h) as [| sess rest]; [discriminate |].
  destruct (session_expiry sess) as [e |]; simpl; [| discriminate].
  destruct (e <? now); [discriminate |].
  destruct (find_user st sess); discriminate.
Qed.

Lemma resolve_invalid_session_iff st now h :
  h <> [] ->
  get_current_user st now (Some h) = Raise InvalidSession <->
  session_lookup st h = [].
Proof.
  intros Hh. rewrite get_current_user_unfold by assumption.
  destruct (session_lookup st h) as [| sess rest]; [tauto |].
  split; [| discriminate].
  destruct (session_expiry sess) as [e |]; simpl; [| discriminate].
  destruct (e <? now); [discriminate |].
  destruct (find_user st sess); discriminate.
Qed.

(** *** Tokens without white space pass through unchanged *)

Lemma lit_bearer : Py.lit "Bearer " = [66; 101; 97; 114; 101; 114; 32].
Proof. reflexivity. Qed.

Lemma startswith_bearer_has_space s :
  Py.startswith (Py.lit "Bearer ") s = true -> ~ no_space s.
Proof.
  rewrite lit_bearer. intros H Hns.
  do 7 (destruct s as [| ? s];
        [cbn [Py.startswith] in H; rewrite ?andb_false_r in H; discriminate |]).
  cbn [Py.startswith] in H. repeat (apply andb_prop in H; destruct H as [? H]).
  unfold no_space in Hns.
  repeat match goal with
         | F : Forall _ (_ :: _) |- _ => inversion F; clear F; subst
         end.
  match goal with
  | E : (32 =? ?c) = true |- _ => apply Z.eqb_eq in E; subst c
  end.
  discriminate.
Qed.

Lemma replace_scan_no_space t :
  no_space t -> Py.replace_scan (Py.lit "Bearer ") [] 0 t = t.
Proof.
  induction t as [| c t IH]; intros Hns; [reflexivity |].
  cbn [Py.replace_scan].
  destruct (Py.startswith (Py.lit "Bearer ") (c :: t)) eqn:E.
  - exfalso. exact (startswith_bearer_has_space _ E Hns).
  - f_equal. apply IH. by inversion Hns.
Qed.

Lemma lstrip_no_space t : no_space t -> Py.lstrip t = t.
Proof.
  destruct t as [| c t]; [reflexivity |]. intros Hns.
  inversion Hns as [| ? ? Hc _]; subst. simpl. by rewrite Hc.
Qed.

Lemma strip_no_space t : no_space t -> Py.strip t = t.
Proof.
  intros Hns. unfold Py.strip, Py.rstrip.
  rewrite (lstrip_no_space t Hns).
  rewrite lstrip_no_space; [apply rev_involutive |].
  by apply List.Forall_rev.
Qed.

Lemma bearer_token_no_space t :
  no_space t ->
  bearer_token (Py.lit "Bearer " ++ t) = t /\ bearer_token t = t.
Proof.
  intros Hns. unfold bearer_token. split.
  - change (Py.replace (Py.lit "Bearer ") [] (Py.lit "Bearer " ++ t))
      with (Py.replace_scan (Py.lit "Bearer ") [] 0 t).
    rewrite replace_scan_no_space by assumption. by apply strip_no_space.
  - change (Py.replace (Py.lit "Bearer ") [] t)
      with (Py.replace_scan (Py.lit "Bearer ") [] 0 t).
    rewrite replace_scan_no_space by assumption. by apply strip_no_space.
Qed.

(** C7, as the specification words it, fails: with two spaces after
    ["Bearer"] the header minus its prefix is [" tok1"], the token of no
    stored session, and yet the request is not turned away as
    InvalidSession; the code looks up ["tok1"]. *)
Lemma C7_counterexample :
  strip_bearer_prefix (Py.lit "Bearer  tok1") = Py.lit " tok1" /\
  get_documents ann_store "session"
    [("token", Is (VStr (strip_bearer_prefix (Py.lit "Bearer  tok1"))))]
    (Some 1%nat) = [] /\
  bearer_token (Py.lit "Bearer  tok1") = Py.lit "tok1" /\
  get_current_user ann_store 1000 (Some (Py.lit "Bearer  tok1"))
    <> Raise InvalidSession.
Proof.
  repeat split; compute_done.
Qed.

(** C7 (amended). [get_current_user] fails with MissingToken exactly when
    the header is absent or empty. For a non-empty header the token looked
    up is the header with every occurrence of ["Bearer "] removed and the
    surrounding white space stripped; the request fails with InvalidSession
    exactly when no stored session carries that token. For a token free of
    white space, with or without the ["Bearer "] prefix, that is the token
    itself. *)
Theorem C7_missing_token_invalid_session st now :
  (forall a, get_current_user st now a = Raise MissingToken
             <-> a = None \/ a = Some []) /\
  (forall h, h <> [] ->
     Forall (fun s : doc => get s "token" <> VStr (bearer_token h))
            (collection st "session") ->
     get_current_user st now (Some h) = Raise InvalidSession) /\
  (forall h, h <> [] ->
     get_current_user st now (Some h) = Raise InvalidSession ->
     Forall (fun s : doc => get s "token" <> VStr (bearer_token h))
            (collection st "session")) /\
  (forall t, no_space t ->
     bearer_token (Py.lit "Bearer " ++ t) = t /\ bearer_token t = t).
Proof.
  split; [| split; [| split]].
  - intros [h |].
    + destruct h as [| c cs].
      * split; [auto | reflexivity].
      * split.
        -- intros H. exfalso.
           by apply (resolve_not_missing st now (c :: cs)).
        -- intros [H | H]; discriminate.
    + split; [auto | reflexivity].
  - intros h Hh Hall. apply resolve_invalid_session_iff; [assumption |].
    by apply session_lookup_nil.
  - intros h Hh Hinv. apply session_lookup_nil.
    by apply (resolve_invalid_session_iff st now h).
  - apply bearer_token_no_space.
Qed.

(** An unknown token is turned away; the prefix is optional for ["tok1"]. *)
Lemma C7_witness :
  get_current_user ann_store 1000 (Some (Py.lit "Bearer nope"))
    = Raise InvalidSession /\
  bearer_token (Py.lit "Bearer " ++ Py.lit "tok1") = Py.lit "tok1" /\
  bearer_token (Py.lit "tok1") = Py.lit "tok1".
Proof.
  destruct (C7_missing_token_invalid_session ann_store 1000)
    as (_ & Hinv & _ & Htok).
  split.
  - apply Hinv; [discriminate | compute_done].
  - apply Htok. compute_done.
Defined.

(* ===================================================================== *)
(** ** What the handlers write *)
(* ===================================================================== *)

Lemma collection_create st name d name' :
  collection (create_document st name d).1 name' =
  if decide (name = name')
  then collection st name ++ [<["_id" := VOid (next_oid st)]> d]
  else collection st name'.
Proof.
  unfold create_document, collection. simpl.
  rewrite lookup_insert. case_decide; subst; reflexivity.
Qed.

(** A successful [register] found no user under the email, appended one
    user and one session, and answers with the token drawn. *)
Lemma register_ok salt st now tok payload st' reply :
  register salt st now tok payload = Ok (st', reply) ->
  get_documents st "flexuser" [("email", Is (VStr (reg_email payload)))]
    (Some 1%nat) = [] /\
  exists ph u s,
    hash_password salt (reg_password payload) = Some ph /\
    collection st' "flexuser" = collection st "flexuser" ++ [u] /\
    collection st' "session" = collection st "session" ++ [s] /\
    collection st' "score" = collection st "score" /\
    u = <["_id" := VOid (next_oid st)]>
          (list_to_map
             [ ("email", VStr (reg_email payload));
               ("display_name", VStr (Py.strip (reg_display_name payload)));
               ("password_hash", VStr ph);
               ("avatar", VNone);
               ("high_score", VInt 0);
               ("is_active", VBool true) ]) /\
    get s "token" = VStr tok /\
    get s "expires_at" = VInt (now + SESSION_TTL_SECONDS) /\
    reply_token reply = tok /\
    reply_user reply =
      list_to_map
        [ ("_id", VStr (py_str (VOid (next_oid st))));
          ("email", VStr (reg_email payload));
          ("display_name", VStr (reg_display_name payload));
          ("high_score", VInt 0) ].
Proof.
  unfold register. intros H.
  destruct (get_documents st "flexuser" _ _) eqn:Hq; [| discriminate].
  split; [reflexivity |].
  destruct (hash_password salt (reg_password payload)) as [ph |] eqn:Hh;
    [| discriminate].
  simpl in H. injection H as <- <-.
  eexists ph, _, _. split; [reflexivity |].
  unfold collection. simpl.
  rewrite !lookup_insert. simpl.
  repeat split.
Qed.

Lemma login_ok salt st now tok payload st' reply :
  login salt st now tok payload = Ok (st', reply) ->
  exists user rest s,
    get_documents st "flexuser" [("email", Is (VStr (login_email payload)))]
      (Some 1%nat) = user :: rest /\
    verify_password salt (login_password payload)
      (get_or user "password_hash" (VStr [])) = Some true /\
    collection st' "flexuser" = collection st "flexuser" /\
    collection st' "session" = collection st "session" ++ [s] /\
    collection st' "score" = collection st "score" /\
    get s "token" = VStr tok /\
    reply_token reply = tok /\
    reply_user reply =
      list_to_map
        [ ("_id", VStr (py_str (get user "_id")));
          ("email", get user "email");
          ("display_name", get user "display_name");
          ("high_score", get_or user "high_score" (VInt 0));
          ("avatar", get user "avatar") ].
Proof.
  unfold login. intros H.
  destruct (get_documents st "flexuser" _ _) as [| user rest] eqn:Hq;
    [discriminate |].
  destruct (verify_password salt (login_password payload) _) as [[|] |] eqn:Hv;
    simpl in H; try discriminate.
  injection H as <- <-.
  eexists user, rest, _. split; [reflexivity |]. split; [exact Hv |].
  unfold collection. simpl.
  rewrite !lookup_insert. simpl.
  repeat split.
Qed.

Lemma submit_score_ok st now authorization v st' :
  submit_score st now authorization v = Ok st' ->
  exists user d,
    get_current_user st now authorization = Ok user /\ 0 <= v /\
    collection st' "flexuser" = collection st "flexuser" /\
    collection st' "session" = collection st "session" /\
    collection st' "score" = collection st "score" ++ [d] /\
    get d "value" = VInt v /\
    get d "display_name" = get user "display_name".
Proof.
  unfold submit_score. intros H.
  destruct (get_current_user st now authorization) as [user | e] eqn:Hu;
    simpl in H; [| discriminate].
  destruct (Z.ltb_spec v 0); [discriminate |].
  injection H as <-.
  eexists user, _. split; [reflexivity |]. split; [assumption |].
  unfold collection. simpl.
  rewrite !lookup_insert. simpl.
  repeat split.
Qed.

(** Stores built by the handlers hold no session with an empty token. *)
Lemma issued_tokens_nonempty salt st : issued salt st -> tokens_nonempty st.
Proof.
  unfold tokens_nonempty.
  induction 1 as [| st now tok p st' r _ IH Htok Hreg
                  | st now tok p st' r _ IH Htok Hlog
                  | st now a v st' _ IH Hsub].
  - constructor.
  - apply register_ok in Hreg as (_ & ph & u & s & _ & _ & Hs & _ & _ & Ht & _).
    rewrite Hs. apply Forall_app. split; [assumption |].
    constructor; [eauto | constructor].
  - apply login_ok in Hlog as (user & rest & s & _ & _ & _ & Hs & _ & Ht & _).
    rewrite Hs. apply Forall_app. split; [assumption |].
    constructor; [eauto | constructor].
  - apply submit_score_ok in Hsub as (user & d & _ & _ & _ & Hs & _).
    by rewrite Hs.
Qed.

Lemma ann_store_issued : issued default_salt ann_store.
Proof.
  unfold ann_store.
  destruct (register default_salt empty_store 1000 (Py.lit "tok1") ann)
    as [[st reply] | e] eqn:E; [| constructor].
  eapply issued_register; [constructor | | exact E]. discriminate.
Qed.

(** C10. A non-empty header that reduces to the empty token (such as
    ["Bearer "] alone) is not a MissingToken: the session look-up is made
    for the empty string, and the request fails with InvalidSession,
    exactly when no stored session carries the empty token, hence on every
    store the handlers built. *)
Theorem C10_empty_token_is_looked_up salt st now h :
  h <> [] ->
  bearer_token h = [] ->
  get_current_user st now (Some h) <> Raise MissingToken /\
  session_lookup st h =
    get_documents st "session" [("token", Is (VStr []))] (Some 1%nat) /\
  (get_current_user st now (Some h) = Raise InvalidSession <->
   Forall (fun s : doc => get s "token" <> VStr []) (collection st "session")) /\
  (issued salt st -> get_current_user st now (Some h) = Raise InvalidSession) /\
  bearer_token (Py.lit "Bearer ") = [] /\
  bearer_token (Py.lit "  Bearer Bearer  ") = [].
Proof.
  intros Hh Htok.
  assert (Hiff : get_current_user st now (Some h) = Raise InvalidSession <->
                 Forall (fun s : doc => get s "token" <> VStr [])
                        (collection st "session")).
  { rewrite resolve_invalid_session_iff by assumption.
    rewrite session_lookup_nil, Htok. reflexivity. }
  split; [by apply resolve_not_missing |].
  split; [unfold session_lookup; by rewrite Htok |].
  split; [exact Hiff |].
  split; [| split; reflexivity].
  intros Hissued. apply Hiff.
  apply issued_tokens_nonempty in Hissued.
  unfold tokens_nonempty in Hissued.
  eapply Forall_impl; [exact Hissued |].
  intros s (t & Hs & Hne). rewrite Hs. congruence.
Qed.

(** The header ["Bearer "] on Ann's store. *)
Lemma C10_witness :
  get_current_user ann_store 1000 (Some (Py.lit "Bearer "))
    = Raise InvalidSession.
Proof.
  destruct (C10_empty_token_is_looked_up default_salt ann_store 1000
              (Py.lit "Bearer ")) as (_ & _ & _ & H & _).
  - discriminate.
  - reflexivity.
  - apply H. exact ann_store_issued.
Defined.

(* ===================================================================== *)
(** ** The user a session resolves to *)
(* ===================================================================== *)

Lemma find_user_chain st sess :
  find_user st sess =
  first_nonempty
    [ users_by_id_eq st sess; users_by_id st sess;
      if truthy (get sess "email") then users_by_email st sess else [] ].
Proof.
  unfold find_user, users_by_id_eq, users_by_id, users_by_email.
  cbn [first_nonempty].
  destruct (get_documents st "flexuser" [("_id", OpEq (get sess "user_id"))] _);
    [| reflexivity].
  destruct (get_documents st "flexuser" [("_id", Is (get sess "user_id"))] _);
    [| reflexivity].
  destruct (truthy (get sess "email")); [| reflexivity].
  by destruct (get_documents st "flexuser" _ _).
Qed.

Lemma first_nonempty_nil {A} (answers : list (list A)) :
  first_nonempty answers = [] <-> Forall (fun a => a = []) answers.
Proof.
  induction answers as [| a answers IH]; simpl.
  - split; [constructor | reflexivity].
  - destruct a as [| x a].
    + rewrite IH. split; [by constructor | by inversion 1].
    + split; [discriminate | inversion 1; discriminate].
Qed.

(** The two filters on [_id] ask the same question of the store. *)
Lemma users_by_id_repeats st sess :
  users_by_id st sess = users_by_id_eq st sess.
Proof. reflexivity. Qed.

(** A look-up for a falsy email finds no user whose email is truthy. *)
Lemma users_by_falsy_email st sess :
  Forall (fun u : doc => truthy (get u "email") = true)
         (collection st "flexuser") ->
  truthy (get sess "email") = false ->
  users_by_email st sess = [].
Proof.
  intros Husers Hfalsy. unfold users_by_email, get_documents.
  apply firstn_one_nil, filter_nil_iff.
  eapply Forall_impl; [exact Husers |]. intros u Hu. cbv beta in Hu.
  unfold matches. simpl. rewrite andb_true_r.
  apply bool_decide_eq_false_2. intros Heq. rewrite Heq in Hu. congruence.
Qed.

(** Outside the schemas the chain is another: a session naming its user by
    a native identifier is not looked up under the identifier's string
    form (both look-ups by [_id] pass the value as it is), and a session
    with an empty email is not looked up by email. *)
Remark resolution_outside_schemas :
  (spec_find_user drift_store drift_session <> [] /\
   session_lookup drift_store (Py.lit "Bearer t7") = [drift_session] /\
   get_current_user drift_store 1000 (Some (Py.lit "Bearer t7"))
     = Raise UserNotFound) /\
  (spec_find_user blank_store blank_session <> [] /\
   session_lookup blank_store (Py.lit "Bearer t0") = [blank_session] /\
   get_current_user blank_store 1000 (Some (Py.lit "Bearer t0"))
     = Raise UserNotFound).
Proof.
  repeat split; compute_done.
Qed.

(** C4. For a session whose [user_id] is a string (as the Session schema
    types it) on a store whose users all have a truthy email (Flexuser's
    email is a required EmailStr), the user is the first answer of: (a)
    the users whose [_id] equals the session's [user_id], (b) on no match,
    the users whose [_id] equals the string form of that id, (c) on no
    match, the users whose email is the session's. A live session fails
    with UserNotFound exactly when all three look-ups return no user, and
    otherwise resolves to the first user found, without its password
    hash. *)
Theorem C4_resolution_order st sess s :
  get sess "user_id" = VStr s ->
  Forall (fun u : doc => truthy (get u "email") = true)
         (collection st "flexuser") ->
  find_user st sess =
    first_nonempty
      [ users_by_id_eq st sess; users_by_id_str st sess;
        users_by_email st sess ] /\
  (forall now h rest e,
     h <> [] -> session_lookup st h = sess :: rest ->
     session_expiry sess = Some e -> now <= e ->
     (get_current_user st now (Some h) = Raise UserNotFound <->
      users_by_id_eq st sess = [] /\ users_by_id_str st sess = [] /\
      users_by_email st sess = []) /\
     (forall user others,
        first_nonempty
          [ users_by_id_eq st sess; users_by_id_str st sess;
            users_by_email st sess ] = user :: others ->
        get_current_user st now (Some h)
          = Ok (delete "password_hash" user))).
Proof.
  intros Hs Husers.
  assert (Hchain : find_user st sess =
    first_nonempty
      [ users_by_id_eq st sess; users_by_id_str st sess;
        users_by_email st sess ]).
  { rewrite find_user_chain.
    assert (Hstr : users_by_id_str st sess = users_by_id st sess).
    { unfold users_by_id_str, users_by_id. rewrite Hs. reflexivity. }
    rewrite Hstr.
    destruct (truthy (get sess "email")) eqn:Hem; [reflexivity |].
    by rewrite (users_by_falsy_email st sess Husers Hem). }
  split; [exact Hchain |].
  intros now h rest e Hh Hlook Hexp Hnow.
  rewrite (get_current_user_live st now h sess rest e Hh Hlook Hexp).
  destruct (Z.ltb_spec e now); [lia |].
  rewrite Hchain. split.
  - assert (Hnil : first_nonempty
                     [ users_by_id_eq st sess; users_by_id_str st sess;
                       users_by_email st sess ] = [] <->
                   users_by_id_eq st sess = [] /\
                   users_by_id_str st sess = [] /\
                   users_by_email st sess = []).
    { rewrite first_nonempty_nil. split.
      - intros HF. inversion HF as [| ? ? H1 HF1]; subst.
        inversion HF1 as [| ? ? H2 HF2]; subst.
        inversion HF2 as [| ? ? H3 _]; subst. auto.
      - intros (H1 & H2 & H3). repeat constructor; assumption. }
    rewrite <- Hnil.
    destruct (first_nonempty _); split; congruence.
  - intros user others Hfound. by rewrite Hfound.
Qed.

(** Ann's session: its user id is a string and every stored user has an
    email; the look-ups by id miss her native [_id], the email finds
    her. *)
Lemma C4_witness :
  get_current_user ann_store 1000 (Some (Py.lit "Bearer tok1"))
    = Ok (delete "password_hash" ann_user) /\
  get_current_user ann_store 1000 (Some (Py.lit "Bearer tok1"))
    <> Raise UserNotFound.
Proof.
  destruct (C4_resolution_order ann_store
              (hd ∅ (collection ann_store "session")) (py_str (VOid 0)))
    as (_ & Hres); [compute_done | compute_done |].
  destruct (Hres 1000 (Py.lit "Bearer tok1") [] 605800) as [Hiff Hfound];
    [discriminate | compute_done | compute_done | lia |].
  assert (Hok : get_current_user ann_store 1000 (Some (Py.lit "Bearer tok1"))
                = Ok (delete "password_hash" ann_user)).
  { apply (Hfound ann_user []). compute_done. }
  split; [exact Hok |]. rewrite Hok. discriminate.
Defined.

(* ===================================================================== *)
(** ** The password hash stays inside *)
(* ===================================================================== *)

(** C5. The user returned by a successful [get_current_user] (and by [me])
    and the user views in the replies of [login] and [register] have no
    [password_hash] field, whatever the stored documents hold. *)
Theorem C5_password_hash_never_returned salt st now :
  (forall a u, get_current_user st now a = Ok u -> u !! "password_hash" = None) /\
  (forall a u, me st now a = Ok u -> u !! "password_hash" = None) /\
  (forall tok payload st' reply,
     login salt st now tok payload = Ok (st', reply) ->
     reply_user reply !! "password_hash" = None) /\
  (forall tok payload st' reply,
     register salt st now tok payload = Ok (st', reply) ->
     reply_user reply !! "password_hash" = None).
Proof.
  assert (Hres : forall a u, get_current_user st now a = Ok u ->
                             u !! "password_hash" = None).
  { intros [h |] u; [| discriminate].
    destruct h as [| c cs]; [discriminate |].
    rewrite get_current_user_unfold by discriminate.
    destruct (session_lookup st (c :: cs)) as [| sess rest]; [discriminate |].
    destruct (session_expiry sess) as [e |]; simpl; [| discriminate].
    destruct (e <? now); [discriminate |].
    destruct (find_user st sess) as [| user ?]; [discriminate |].
    intros [= <-]. apply lookup_delete_eq. }
  split; [exact Hres |]. split; [exact Hres |]. split.
  - intros tok payload st' reply H.
    apply login_ok in H as (user & rest & s & _ & _ & _ & _ & _ & _ & _ & Hr).
    rewrite Hr. reflexivity.
  - intros tok payload st' reply H.
    apply register_ok in H as (_ & ph & u & s & _ & _ & _ & _ & _ & _ & _ & _ & Hr).
    rewrite Hr. reflexivity.
Qed.

(** Ann's stored document has a password hash; what [/me] returns for her
    token has none, and neither have the views she got when registering
    and gets when logging in. *)
Lemma C5_witness :
  is_Some (ann_user !! "password_hash") /\
  (get_current_user ann_store 1000 (Some (Py.lit "Bearer tok1"))
     = Ok (delete "password_hash" ann_user) /\
   delete "password_hash" ann_user !! "password_hash" = None) /\
  (exists st' reply,
     register default_salt empty_store 1000 (Py.lit "tok1") ann
       = Ok (st', reply) /\
     reply_user reply !! "password_hash" = None) /\
  (exists st' reply,
     login default_salt ann_store 2000 (Py.lit "tok2")
       {| login_email := Py.lit "ann@flex.io";
          login_password := Py.lit "secret" |} = Ok (st', reply) /\
     reply_user reply !! "password_hash" = None).
Proof.
  destruct (C5_password_hash_never_returned default_salt ann_store 1000)
    as (Hres & _).
  destruct (C5_password_hash_never_returned default_salt ann_store 2000)
    as (_ & _ & Hlogin & _).
  destruct (C5_password_hash_never_returned default_salt empty_store 1000)
    as (_ & _ & _ & Hreg).
  split; [compute_done |]. split; [| split].
  - assert (H : get_current_user ann_store 1000 (Some (Py.lit "Bearer tok1"))
                = Ok (delete "password_hash" ann_user)) by compute_done.
    split; [exact H | exact (Hres _ _ H)].
  - destruct (succeeds_ok
                (register default_salt empty_store 1000 (Py.lit "tok1") ann))
      as [[st' reply] E]; [compute_done |].
    exists st', reply. split; [exact E | exact (Hreg _ _ _ _ E)].
  - destruct (succeeds_ok
                (login default_salt ann_store 2000 (Py.lit "tok2")
                   {| login_email := Py.lit "ann@flex.io";
                      login_password := Py.lit "secret" |}))
      as [[st' reply] E]; [compute_done |].
    exists st', reply. split; [exact E | exact (Hlogin _ _ _ _ E)].
Defined.

(* ===================================================================== *)
(** ** Registration *)
(* ===================================================================== *)

Lemma collection_store_of users sessions scores :
  collection (store_of users sessions scores) "flexuser" = users /\
  collection (store_of users sessions scores) "session" = sessions /\
  collection (store_of users sessions scores) "score" = scores.
Proof. repeat split. Qed.

(** A look-up by email answers exactly when some stored user has it. *)
Lemma users_with_email st email :
  get_documents st "flexuser" [("email", Is (VStr email))] (Some 1%nat) <> [] <->
  exists u, u ∈ collection st "flexuser" /\ get u "email" = VStr email.
Proof.
  unfold get_documents. rewrite firstn_one_nil, filter_nil_iff.
  rewrite <- Exists_Forall_neg
    by (intros u; destruct (matches [("email", Is (VStr email))] u); auto).
  rewrite Exists_exists. apply exist_proper. intros u.
  unfold matches. simpl. rewrite andb_true_r.
  rewrite not_false_iff_true, bool_decide_eq_true. reflexivity.
Qed.

Lemma well_formed_check s : forallb scalarb s = true -> well_formed s.
Proof.
  intros H. apply Forall_forall. intros c Hc.
  apply list_elem_of_In in Hc.
  rewrite forallb_forall in H. specialize (H c Hc).
  unfold scalarb in H. unfold scalar.
  destruct (Z.leb_spec 0 c), (Z.ltb_spec c 1114112),
    (Z.leb_spec 55296 c), (Z.leb_spec c 57343); simpl in H;
    try discriminate; lia.
Qed.

Lemma encode_utf8_total s : well_formed s -> is_Some (Py.encode_utf8 s).
Proof.
  induction 1 as [| c s [Hc Hsur] _ [bs IH]]; [by eexists |].
  simpl. rewrite IH.
  assert (Hch : is_Some (Py.utf8_char c)).
  { unfold Py.utf8_char.
    destruct (Z.ltb_spec c 0); [lia |].
    destruct (Z.ltb_spec c 128); [by eexists |].
    destruct (Z.ltb_spec c 2048); [by eexists |].
    destruct ((55296 <=? c) && (c <=? 57343)) eqn:E.
    { apply andb_true_iff in E as [?%Z.leb_le ?%Z.leb_le]. lia. }
    destruct (Z.ltb_spec c 65536); [by eexists |].
    destruct (Z.ltb_spec c 1114112); [by eexists | lia]. }
  destruct Hch as [cs ->]. by eexists.
Qed.

Lemma hash_password_total salt p :
  well_formed salt -> well_formed p -> is_Some (hash_password salt p).
Proof.
  intros Hs Hp. unfold hash_password.
  destruct (encode_utf8_total (salt ++ p)) as [bs ->]; [| by eexists].
  by apply Forall_app.
Qed.

(** C3, as stated, fails: the duplicate check does not look at
    [is_active]. With only a switched-off user under the email, no active
    user has it, and registration is refused all the same. *)
Lemma C3_counterexample :
  register default_salt retired_store 1000 (Py.lit "tok9") ann
    = Raise DuplicateEmail /\
  ~ (exists u, u ∈ collection retired_store "flexuser" /\
               get u "email" = VStr (reg_email ann) /\
               get u "is_active" = VBool true).
Proof.
  split; [compute_done |].
  intros (u & Hin & _ & Hact).
  change (collection retired_store "flexuser") with [retired_user] in Hin.
  apply list_elem_of_singleton in Hin. subst u.
  assert (Hoff : get retired_user "is_active" = VBool false) by compute_done.
  congruence.
Qed.

(** C3 (amended). [register] fails with DuplicateEmail if and only if some
    stored user document, active or not, has the given email. Otherwise
    (the salted password being encodable) it appends a user with that
    email, the stripped display name, the password's hash, [high_score] 0
    and [is_active] true, appends a session with the token drawn, expiring
    after the TTL, and returns the token with the view [_id], [email],
    [display_name], [high_score]. *)
Theorem C3_register_duplicate_email salt st now tok payload :
  (register salt st now tok payload = Raise DuplicateEmail <->
   exists u, u ∈ collection st "flexuser" /\
             get u "email" = VStr (reg_email payload)) /\
  ((forall u, u ∈ collection st "flexuser" ->
              get u "email" <> VStr (reg_email payload)) ->
   well_formed salt -> well_formed (reg_password payload) ->
   exists st' reply u s ph,
     register salt st now tok payload = Ok (st', reply) /\
     hash_password salt (reg_password payload) = Some ph /\
     collection st' "flexuser" = collection st "flexuser" ++ [u] /\
     get u "email" = VStr (reg_email payload) /\
     get u "display_name" = VStr (Py.strip (reg_display_name payload)) /\
     get u "password_hash" = VStr ph /\
     get u "high_score" = VInt 0 /\
     get u "is_active" = VBool true /\
     collection st' "session" = collection st "session" ++ [s] /\
     get s "token" = VStr tok /\
     get s "expires_at" = VInt (now + SESSION_TTL_SECONDS) /\
     reply_token reply = tok /\
     reply_user reply =
       list_to_map
         [ ("_id", VStr (py_str (VOid (next_oid st))));
           ("email", VStr (reg_email payload));
           ("display_name", VStr (reg_display_name payload));
           ("high_score", VInt 0) ]).
Proof.
  split.
  - rewrite <- users_with_email. unfold register.
    destruct (get_documents st "flexuser" _ _) as [| u us].
    + split; [| congruence].
      destruct (hash_password salt (reg_password payload)); discriminate.
    + split; [discriminate | reflexivity].
  - intros Hfree Hsalt Hpw.
    assert (Hq : get_documents st "flexuser"
                   [("email", Is (VStr (reg_email payload)))] (Some 1%nat) = []).
    { destruct (get_documents st "flexuser" _ _) as [| u us] eqn:E;
        [reflexivity |].
      assert (Hne : get_documents st "flexuser"
                      [("email", Is (VStr (reg_email payload)))] (Some 1%nat)
                    <> []) by (rewrite E; discriminate).
      apply users_with_email in Hne as (u' & Hin & Hem).
      exfalso. exact (Hfree u' Hin Hem). }
    destruct (hash_password_total salt (reg_password payload) Hsalt Hpw)
      as [ph Hph].
    destruct (register salt st now tok payload) as [[st' reply] | e] eqn:Hreg.
    + pose proof (register_ok _ _ _ _ _ _ _ Hreg)
        as (_ & ph' & u & s & Hph' & Hu & Hs & _ & Hdoc & Ht & He & Hrt & Hru).
      rewrite Hph in Hph'. injection Hph' as <-.
      exists st', reply, u, s, ph.
      repeat split; try assumption; subst u; reflexivity.
    + exfalso. unfold register in Hreg. rewrite Hq, Hph in Hreg.
      discriminate.
Qed.

(** On the empty store Ann is registered. *)
Lemma C3_witness :
  exists st' reply,
    register default_salt empty_store 1000 (Py.lit "tok1") ann = Ok (st', reply)
    /\ reply_token reply = Py.lit "tok1".
Proof.
  destruct (C3_register_duplicate_email default_salt empty_store 1000
              (Py.lit "tok1") ann) as [_ H].
  destruct H as (st' & reply & u & s & ph & Hreg & Hrest).
  - intros u Hin.
    change (collection empty_store "flexuser") with (@nil doc) in Hin.
    by apply elem_of_nil in Hin.
  - apply well_formed_check. compute_done.
  - apply well_formed_check. compute_done.
  - exists st', reply. split; [exact Hreg |]. apply Hrest.
Defined.

(* ===================================================================== *)
(** ** The leaderboard *)
(* ===================================================================== *)

Section SortedDesc.

Context {A : Type}.
Implicit Types (l : list (Z * A)) (k : Z) (x : A).

Lemma insert_desc_perm k x l : Py.insert_desc k x l ≡ₚ (k, x) :: l.
Proof.
  induction l as [| [k' y] l IH]; simpl; [reflexivity |].
  destruct (k' <=? k); [reflexivity |].
  rewrite IH. apply perm_swap.
Qed.

Lemma sorted_desc_perm l : Py.sorted_desc l ≡ₚ l.
Proof.
  induction l as [| [k x] l IH]; simpl; [reflexivity |].
  rewrite insert_desc_perm. by rewrite IH.
Qed.

Lemma insert_desc_sorted k x l :
  keys_descending l -> keys_descending (Py.insert_desc k x l).
Proof.
  unfold keys_descending.
  induction l as [| [k' y] l IH]; intros Hs; simpl.
  - repeat constructor.
  - apply StronglySorted_inv in Hs as [Hl Hall].
    destruct (Z.leb_spec k' k) as [Hle | Hgt].
    + constructor; [by constructor |].
      constructor; [exact Hle |].
      eapply Forall_impl; [exact Hall |]. simpl. intros; lia.
    + constructor; [by apply IH |].
      rewrite insert_desc_perm. constructor; [simpl; lia | exact Hall].
Qed.

Lemma sorted_desc_sorted l : keys_descending (Py.sorted_desc l).
Proof.
  induction l as [| [k x] l IH]; simpl; [constructor |].
  by apply insert_desc_sorted.
Qed.

(** Insertion passes only over strictly greater keys, so it never moves an
    element across another of the same key. *)
Lemma insert_desc_stable k0 k x l :
  List.filter (fun p => fst p =? k0) (Py.insert_desc k x l) =
  List.filter (fun p => fst p =? k0) ((k, x) :: l).
Proof.
  induction l as [| [k' y] l IH]; [reflexivity |].
  cbn [Py.insert_desc].
  destruct (Z.leb_spec k' k) as [Hle | Hgt]; [reflexivity |].
  cbn [List.filter fst] in *. rewrite IH.
  destruct (Z.eqb_spec k' k0), (Z.eqb_spec k k0); try reflexivity. lia.
Qed.

Lemma sorted_desc_stable k0 l :
  List.filter (fun p => fst p =? k0) (Py.sorted_desc l) =
  List.filter (fun p => fst p =? k0) l.
Proof.
  induction l as [| [k x] l IH]; [reflexivity |].
  cbn [Py.sorted_desc]. rewrite insert_desc_stable.
  cbn [List.filter fst]. by rewrite IH.
Qed.

End SortedDesc.

Lemma get_documents_all st name :
  get_documents st name [] None = collection st name.
Proof.
  unfold get_documents, matches. simpl.
  induction (collection st name) as [| d l IH]; simpl; congruence.
Qed.

(** The (key, document) pairs the sort works on. *)
Lemma keyed_docs docs :
  Forall (fun d => is_Some (score_key d)) docs ->
  exists keyed,
    mapM (fun d => k ← score_key d; Some (k, d)) docs = Some keyed /\
    map snd keyed = docs /\
    Forall (fun p => score_key (snd p) = Some (fst p)) keyed.
Proof.
  induction 1 as [| d docs [k Hk] _ (keyed & Hm & Hsnd & Hkeys)].
  - exists []. repeat split. constructor.
  - exists ((k, d) :: keyed). split; [| split].
    + apply mapM_Some_2. constructor; [by rewrite Hk |].
      by apply mapM_Some_1.
    + simpl. by rewrite Hsnd.
    + by constructor.
Qed.

Lemma ranked_of_keyed (l : list (Z * doc)) :
  keys_descending l ->
  Forall (fun p => score_key (snd p) = Some (fst p)) l ->
  StronglySorted ranked_before (map snd l).
Proof.
  unfold keys_descending.
  induction 1 as [| p l _ IH Hall]; intros Hinv; [constructor |].
  inversion Hinv as [| ? ? Hp Hl]; subst.
  cbn. constructor; [by apply IH |].
  apply Forall_map.
  rewrite Forall_forall in Hall, Hl. apply Forall_forall.
  intros q Hq. exists (fst p), (fst q). auto.
Qed.

Lemma slice_to_firstn {A} (l : list A) n :
  exists m, Py.slice_to l n = firstn m l /\ (0 <= n -> m = Z.to_nat n).
Proof.
  unfold Py.slice_to. destruct (Z.ltb_spec n 0); eexists; split; eauto; lia.
Qed.

Lemma serialize_sorted docs out :
  StronglySorted ranked_before docs ->
  mapM serialize_score docs = Some out ->
  StronglySorted (fun a b => entry_value b <= entry_value a) out.
Proof.
  intros Hs Hm. apply mapM_Some_1 in Hm. revert Hs.
  induction Hm as [| d e docs out He Hrest IH]; intros Hs; [constructor |].
  apply StronglySorted_inv in Hs as [Hs Hall].
  constructor; [by apply IH |].
  clear IH Hs. unfold serialize_score in He.
  destruct (score_key d) as [k |] eqn:Hk; [| discriminate].
  injection He as <-.
  induction Hrest as [| d' e' docs' out' He' _ IH']; [constructor |].
  inversion Hall as [| ? ? Hd' Hall']; subst.
  constructor; [| by apply IH'].
  destruct Hd' as (ka & kb & Ha & Hb & Hle).
  unfold serialize_score in He'. rewrite Hb in He'.
  injection He' as <-. simpl. congruence.
Qed.

(** C8, as stated, fails for a negative limit ([limit=-1] drops the last
    entry of the sorted list instead of returning none) and for a stored
    score whose value does not convert ([int(None)] raises). *)
Lemma C8_counterexample :
  (top_scores board_store (-1)
     = Ok [entry "B" 80; entry "C" 80; entry "A" 50] /\
   ~ (Z.of_nat (length [entry "B" 80; entry "C" 80; entry "A" 50]) <= -1)) /\
  top_scores null_score_store 3 = Raise Uncaught.
Proof.
  split; [split |]; compute_done.
Qed.

(** C8 (amended). When the value of every stored score converts with
    [int()], [/scores/top] returns, for every limit, the leading part of
    the stable descending sort of the stored scores: values descend, scores
    of equal value keep their insertion order, and for a limit [N >= 0]
    there are at most [N] entries. The scores (A,50), (B,80), (C,80),
    (D,10) give B, C, A for limit 3. *)
Theorem C8_top_scores_sorted_stable st limit :
  (Forall (fun d => is_Some (score_key d)) (collection st "score") ->
   exists ranked out,
     ranked ≡ₚ collection st "score" /\
     StronglySorted ranked_before ranked /\
     (forall k, List.filter (has_key k) ranked =
                List.filter (has_key k) (collection st "score")) /\
     top_scores st limit = Ok out /\
     mapM serialize_score (Py.slice_to ranked limit) = Some out /\
     (0 <= limit -> Z.of_nat (length out) <= limit) /\
     StronglySorted (fun a b => entry_value b <= entry_value a) out) /\
  top_scores board_store 3 = Ok [entry "B" 80; entry "C" 80; entry "A" 50].
Proof.
  split; [| compute_done].
  intros Hkeys.
  destruct (keyed_docs _ Hkeys) as (keyed & Hm & Hsnd & Hinv).
  set (ranked := map snd (Py.sorted_desc keyed)).
  assert (Hinv' : Forall (fun p => score_key (snd p) = Some (fst p))
                    (Py.sorted_desc keyed)).
  { by rewrite sorted_desc_perm. }
  assert (Hperm : ranked ≡ₚ collection st "score").
  { unfold ranked. rewrite <- Hsnd. apply Permutation_map, sorted_desc_perm. }
  assert (Hsorted : StronglySorted ranked_before ranked).
  { apply ranked_of_keyed; [apply sorted_desc_sorted | exact Hinv']. }
  assert (Hstable : forall k, List.filter (has_key k) ranked =
                              List.filter (has_key k) (collection st "score")).
  { intros k. unfold ranked. rewrite <- Hsnd.
    assert (Hf : forall l : list (Z * doc),
               Forall (fun p => score_key (snd p) = Some (fst p)) l ->
               List.filter (has_key k) (map snd l) =
               map snd (List.filter (fun p => fst p =? k) l)).
    { induction 1 as [| p l Hp _ IH]; [reflexivity |].
      cbn. unfold has_key at 1. rewrite Hp, IH.
      destruct (Z.eqb_spec (fst p) k) as [-> | Hne].
      - by rewrite bool_decide_eq_true_2.
      - rewrite bool_decide_eq_false_2; [reflexivity | congruence]. }
    rewrite !Hf by assumption. by rewrite sorted_desc_stable. }
  assert (Hds : docs_sorted (collection st "score") limit
                = Some (Py.slice_to ranked limit)).
  { unfold docs_sorted. rewrite Hm. reflexivity. }
  destruct (slice_to_firstn ranked limit) as (m & Hslice & Hm0).
  assert (Hser : is_Some (mapM serialize_score (Py.slice_to ranked limit))).
  { apply mapM_is_Some. rewrite Hslice. apply Forall_take.
    rewrite Hperm. eapply Forall_impl; [exact Hkeys |].
    intros d [k Hk]. unfold compose, serialize_score. rewrite Hk. by eexists. }
  destruct Hser as [out Hout].
  exists ranked, out.
  split; [exact Hperm |]. split; [exact Hsorted |]. split; [exact Hstable |].
  split.
  { unfold top_scores. rewrite get_documents_all, Hds. cbn.
    rewrite Hout. reflexivity. }
  split; [exact Hout |]. split.
  - intros Hpos. apply length_mapM in Hout. rewrite <- Hout, Hslice.
    rewrite (Hm0 Hpos). pose proof (firstn_le_length (Z.to_nat limit) ranked).
    lia.
  - apply (serialize_sorted (Py.slice_to ranked limit)); [| exact Hout].
    rewrite Hslice. rewrite <- (firstn_skipn m ranked) in Hsorted.
    by apply StronglySorted_app_1_l in Hsorted.
Qed.

(** The specification's example, read off the general statement. *)
Lemma C8_witness :
  exists out, top_scores board_store 3 = Ok out /\
              Z.of_nat (length out) <= 3 /\
              StronglySorted (fun a b => entry_value b <= entry_value a) out.
Proof.
  destruct (C8_top_scores_sorted_stable board_store 3) as [H _].
  destruct H as (ranked & out & _ & _ & _ & Htop & _ & Hlen & Hdesc).
  - apply Forall_forall. intros d Hd.
    change (collection board_store "score")
      with [score_doc "A" 50; score_doc "B" 80; score_doc "C" 80; score_doc "D" 10]
      in Hd.
    repeat (apply elem_of_cons in Hd as [-> | Hd]; [by eexists |]).
    by apply elem_of_nil in Hd.
  - exists out. split; [exact Htop |]. split; [apply Hlen; lia | exact Hdesc].
Defined.

(* ===================================================================== *)
(** ** Password hashing *)
(* ===================================================================== *)

(** *** The digest is a 256-bit number *)

Lemma round_length st kw : length st = 8%nat -> length (SHA256.round st kw) = 8%nat.
Proof.
  intros H.
  do 8 (destruct st as [| ? st]; [discriminate |]).
  destruct st; [reflexivity | discriminate].
Qed.

Lemma rounds_length kws st :
  length st = 8%nat -> length (fold_left SHA256.round kws st) = 8%nat.
Proof.
  revert st. induction kws as [| kw kws IH]; intros st H; [exact H |].
  simpl. apply IH. by apply round_length.
Qed.

Lemma zip_add_length xs ys :
  length xs = length ys -> length (SHA256.zip_add xs ys) = length xs.
Proof.
  revert ys. induction xs as [| x xs IH]; intros [| y ys] H;
    try discriminate; [reflexivity |].
  simpl. f_equal. apply IH. by injection H.
Qed.

Lemma zip_add_words xs ys : Forall word32 (SHA256.zip_add xs ys).
Proof.
  revert ys. induction xs as [| x xs IH]; intros [| y ys];
    try constructor; [| apply IH].
  unfold word32, SHA256.add32, SHA256.w32. apply Z.mod_pos_bound. lia.
Qed.

Lemma compress_state h block :
  length h = 8%nat ->
  length (SHA256.compress h block) = 8%nat /\
  Forall word32 (SHA256.compress h block).
Proof.
  intros H. unfold SHA256.compress. split; [| apply zip_add_words].
  rewrite zip_add_length; [exact H |].
  rewrite rounds_length by exact H. exact H.
Qed.

Lemma state_words msg :
  length (SHA256.state msg) = 8%nat /\ Forall word32 (SHA256.state msg).
Proof.
  unfold SHA256.state.
  generalize (SHA256.blocks (length (SHA256.words (SHA256.pad msg)))
                (SHA256.words (SHA256.pad msg))).
  assert (H0 : length SHA256.H0 = 8%nat /\ Forall word32 SHA256.H0).
  { split; [reflexivity |]. repeat (constructor; [unfold word32; lia |]).
    constructor. }
  revert H0. generalize SHA256.H0.
  intros h Hh bs. revert h Hh.
  induction bs as [| b bs IH]; intros h Hh; [exact Hh |].
  simpl. apply IH. apply compress_state, Hh.
Qed.

Lemma pack_words_bound ws acc :
  Forall word32 ws -> 0 <= acc ->
  0 <= fold_left (fun a x => a * 4294967296 + x) ws acc
    < (acc + 1) * 4294967296 ^ Z.of_nat (length ws).
Proof.
  intros Hws. revert acc.
  induction Hws as [| x ws Hx _ IH]; intros acc Hacc.
  - simpl. lia.
  - cbn [fold_left length]. unfold word32 in Hx.
    specialize (IH (acc * 4294967296 + x) ltac:(lia)).
    rewrite Nat2Z.inj_succ, Z.pow_succ_r by lia.
    assert (Hp : 0 < 4294967296 ^ Z.of_nat (length ws))
      by (apply Z.pow_pos_nonneg; lia).
    nia.
Qed.

Lemma digest_int_range msg : 0 <= SHA256.digest_int msg < 2 ^ 256.
Proof.
  unfold SHA256.digest_int.
  destruct (state_words msg) as [Hlen Hws].
  pose proof (pack_words_bound (SHA256.state msg) 0 Hws ltac:(lia)) as H.
  rewrite Hlen in H. change (Z.of_nat 8) with 8 in H.
  change ((0 + 1) * 4294967296 ^ 8) with (2 ^ 256) in H. exact H.
Qed.

(** *** More plaintexts than digests *)

Lemma bounded_search (f : Z -> Z) (v : Z) n :
  0 <= n ->
  (exists i, 0 <= i <= n /\ f i = v) \/ (forall i, 0 <= i <= n -> f i <> v).
Proof.
  revert n. apply natlike_ind.
  - destruct (Z.eq_dec (f 0) v) as [H | H].
    + left. exists 0. split; [lia | exact H].
    + right. intros i Hi. by replace i with 0 by lia.
  - intros n Hn [(i & Hi & Hv) | Hnone].
    + left. exists i. split; [lia | exact Hv].
    + destruct (Z.eq_dec (f (Z.succ n)) v) as [H | H].
      * left. exists (Z.succ n). split; [lia | exact H].
      * right. intros i Hi.
        destruct (Z.eq_dec i (Z.succ n)) as [-> | Hne]; [exact H |].
        apply Hnone. lia.
Qed.

(** [n + 1] arguments with values below [n]: two of them agree. *)
Lemma pigeonhole n :
  0 <= n ->
  forall f : Z -> Z,
    (forall i, 0 <= i <= n -> 0 <= f i < n) ->
    exists i j, 0 <= i < j /\ j <= n /\ f i = f j.
Proof.
  revert n. apply (natlike_ind (fun n => forall f : Z -> Z,
    (forall i, 0 <= i <= n -> 0 <= f i < n) ->
    exists i j, 0 <= i < j /\ j <= n /\ f i = f j)).
  - intros f Hf. specialize (Hf 0). lia.
  - intros n Hn IH f Hf.
    destruct (bounded_search f (f (Z.succ n)) n Hn) as [(i & Hi & Hv) | Hnone].
    + exists i, (Z.succ n). split; [lia |]. split; [lia | exact Hv].
    + set (v := f (Z.succ n)) in *.
      assert (Hv : 0 <= v < Z.succ n) by (apply Hf; lia).
      destruct (IH (fun i => if f i <? v then f i else f i - 1))
        as (i & j & Hij & Hjn & Heq).
      * intros i Hi. specialize (Hf i ltac:(lia)).
        specialize (Hnone i Hi).
        destruct (Z.ltb_spec (f i) v); lia.
      * exists i, j. split; [lia |]. split; [lia |].
        pose proof (Hnone i ltac:(lia)). pose proof (Hnone j ltac:(lia)).
        cbv beta in Heq.
        destruct (Z.ltb_spec (f i) v), (Z.ltb_spec (f j) v); lia.
Qed.

(** *** Hashing the plaintexts [bits i] *)

Lemma encode_utf8_app s1 s2 b1 b2 :
  Py.encode_utf8 s1 = Some b1 -> Py.encode_utf8 s2 = Some b2 ->
  Py.encode_utf8 (s1 ++ s2) = Some (b1 ++ b2).
Proof.
  revert b1. induction s1 as [| c s1 IH]; intros b1 H1 H2.
  - injection H1 as <-. exact H2.
  - cbn [app Py.encode_utf8] in *.
    destruct (Py.utf8_char c) as [bs |]; [| discriminate].
    destruct (Py.encode_utf8 s1) as [r |]; [| discriminate].
    injection H1 as <-. rewrite (IH r eq_refl H2). by rewrite app_assoc.
Qed.

Lemma pos_bits_inj p q : pos_bits p = pos_bits q -> p = q.
Proof.
  revert q. induction p as [p IH | p IH |]; intros [q | q |] H;
    cbn in H; try discriminate H; try reflexivity.
  - injection H as H. f_equal. by apply IH.
  - injection H as H. by destruct p.
  - injection H as H. f_equal. by apply IH.
  - injection H as H. by destruct q.
Qed.

Lemma bits_inj i j : 0 <= i -> 0 <= j -> bits i = bits j -> i = j.
Proof.
  destruct i as [| p | p], j as [| q | q]; intros Hi Hj H;
    try lia; cbn in H.
  - by destruct q.
  - by destruct p.
  - f_equal. by apply pos_bits_inj.
Qed.

Lemma pos_bits_length p : length (pos_bits p) = Pos.to_nat (Pos.size p).
Proof.
  induction p as [p IH | p IH |]; cbn [pos_bits length Pos.size];
    rewrite ?IH, ?Pos2Nat.inj_succ; reflexivity.
Qed.

(** Numbers up to [2 ^ 256] take at most 257 digits. *)
Lemma bits_length i : i <= 2 ^ 256 -> (length (bits i) <= 257)%nat.
Proof.
  destruct i as [| p | p]; intros Hi; cbn [bits length]; try lia.
  rewrite pos_bits_length.
  pose proof (Pos.size_le p) as Hsz.
  assert (Hz : 2 ^ Z.pos (Pos.size p) <= 2 * Z.pos p).
  { rewrite <- Pos2Z.inj_pow. change (2 * Z.pos p) with (Z.pos p~0). lia. }
  destruct (Z.le_gt_cases (Z.pos (Pos.size p)) 257) as [Hle | Hgt]; [lia |].
  assert (2 ^ 258 <= 2 ^ Z.pos (Pos.size p))
    by (apply Z.pow_le_mono_r; lia).
  lia.
Qed.

Lemma pos_bits_ascii p : Forall (fun c => 48 <= c <= 49) (pos_bits p).
Proof. induction p; cbn; constructor; (lia || assumption || constructor). Qed.

Lemma encode_utf8_ascii s :
  Forall (fun c => 48 <= c <= 49) s -> Py.encode_utf8 s = Some s.
Proof.
  induction 1 as [| c s Hc _ IH]; [reflexivity |].
  cbn [Py.encode_utf8]. rewrite IH. unfold Py.utf8_char.
  destruct (Z.ltb_spec c 0); [lia |].
  destruct (Z.ltb_spec c 128); [reflexivity | lia].
Qed.

Lemma bits_ascii i : Forall (fun c => 48 <= c <= 49) (bits i).
Proof. destruct i; cbn; try constructor. apply pos_bits_ascii. Qed.

Lemma bits_well_formed i : well_formed (bits i).
Proof.
  eapply Forall_impl; [apply bits_ascii |].
  intros c Hc. cbv beta in Hc. unfold scalar. lia.
Qed.

Lemma hash_password_bits i :
  hash_password default_salt (bits i) =
  Some (Py.hex_digits 64 (SHA256.digest_int (default_salt ++ bits i)) []).
Proof.
  unfold hash_password.
  rewrite (encode_utf8_app default_salt (bits i) default_salt (bits i));
    [reflexivity | reflexivity | apply encode_utf8_ascii, bits_ascii].
Qed.

(** Two distinct plaintexts, of at most 257 binary digits each, with the
    same hash. *)
Lemma hash_password_collision :
  exists p q d,
    well_formed p /\ well_formed q /\ p <> q /\
    (length p <= 257)%nat /\ (length q <= 257)%nat /\
    hash_password default_salt p = Some d /\
    hash_password default_salt q = Some d.
Proof.
  destruct (pigeonhole (2 ^ 256) ltac:(lia)
              (fun i => SHA256.digest_int (default_salt ++ bits i)))
    as (i & j & Hij & Hj & Heq).
  { intros i _. apply digest_int_range. }
  cbv beta in Heq.
  exists (bits i), (bits j),
    (Py.hex_digits 64 (SHA256.digest_int (default_salt ++ bits j)) []).
  split; [apply bits_well_formed |]. split; [apply bits_well_formed |].
  split; [intros H; apply bits_inj in H; lia |].
  split; [apply bits_length; lia |]. split; [apply bits_length; lia |].
  rewrite !hash_password_bits, Heq. split; reflexivity.
Qed.

(** C6, as stated, fails in its second half: the digests are 256-bit
    numbers, fewer than the plaintexts of 257 characters, so the hash is
    not injective; for two distinct plaintexts of equal hash [verify]
    answers true. *)
Lemma C6_counterexample :
  ~ (forall p q d,
       well_formed p -> well_formed q ->
       (length p <= 257)%nat -> (length q <= 257)%nat ->
       p <> q ->
       hash_password default_salt q = Some d ->
       verify_password default_salt p (VStr d) = Some false).
Proof.
  intros H.
  destruct hash_password_collision
    as (p & q & d & Hp & Hq & Hne & Hlp & Hlq & Hhp & Hhq).
  specialize (H p q d Hp Hq Hlp Hlq Hne Hhq).
  unfold verify_password in H. rewrite Hhp in H. cbn in H.
  rewrite bool_decide_eq_true_2 in H by reflexivity. discriminate.
Qed.

(** C6 (amended). For every plaintext [p] the salted hash accepts (every
    well-formed [p] under a well-formed salt), [verify(p, hash(p))] is
    true; [verify(p, hash(q))] is true or false as the digests of [p] and
    [q] are equal or not, so it is false exactly when the digests differ.
    Distinct plaintexts need not have distinct digests. *)
Theorem C6_verify_rehash salt :
  (forall p d, hash_password salt p = Some d ->
               verify_password salt p (VStr d) = Some true) /\
  (well_formed salt -> forall p, well_formed p ->
     exists d, hash_password salt p = Some d /\
               verify_password salt p (VStr d) = Some true) /\
  (forall p q dp dq,
     hash_password salt p = Some dp -> hash_password salt q = Some dq ->
     verify_password salt p (VStr dq) = Some (bool_decide (dp = dq)) /\
     (verify_password salt p (VStr dq) = Some false <-> dp <> dq) /\
     (dp <> dq -> p <> q)) /\
  verify_password default_salt (Py.lit "secret")
    (VStr (default [] (hash_password default_salt (Py.lit "Secret"))))
    = Some false.
Proof.
  assert (Hself : forall p d, hash_password salt p = Some d ->
                              verify_password salt p (VStr d) = Some true).
  { intros p d H. unfold verify_password. rewrite H. cbn.
    by rewrite bool_decide_eq_true_2. }
  split; [exact Hself |]. split; [| split].
  - intros Hsalt p Hp.
    destruct (hash_password_total salt p Hsalt Hp) as [d Hd].
    exists d. split; [exact Hd | by apply Hself].
  - intros p q dp dq Hp Hq.
    assert (Hv : verify_password salt p (VStr dq)
                 = Some (bool_decide (dp = dq))).
    { unfold verify_password. rewrite Hp. cbn. f_equal.
      apply bool_decide_ext. split; congruence. }
    split; [exact Hv |]. split.
    + rewrite Hv. split.
      * intros [= H]. by apply bool_decide_eq_false in H.
      * intros H. by rewrite bool_decide_eq_false_2.
    + intros Hne ->. congruence.
  - compute_done.
Qed.

(** Ann's password against its own hash. *)
Lemma C6_witness :
  exists d, hash_password default_salt (Py.lit "secret") = Some d /\
            verify_password default_salt (Py.lit "secret") (VStr d) = Some true.
Proof.
  destruct (C6_verify_rehash default_salt) as (_ & H & _).
  apply H; apply well_formed_check; compute_done.
Defined.

(* ===================================================================== *)
(** ** Further properties of the handlers *)
(* ===================================================================== *)

(** *** What a request reads *)

Lemma get_documents_ext st st' name flt limit :
  collection st' name = collection st name ->
  get_documents st' name flt limit = get_documents st name flt limit.
Proof. unfold get_documents. by intros ->. Qed.

Lemma find_user_ext st st' sess :
  collection st' "flexuser" = collection st "flexuser" ->
  find_user st' sess = find_user st sess.
Proof.
  intros H. unfold find_user.
  by rewrite !(get_documents_ext st st' "flexuser") by exact H.
Qed.

Lemma token_filter (name : string) (t : list Z) (s : doc) :
  matches [(name, Is (VStr t))] s = bool_decide (get s name = VStr t).
Proof. unfold matches. simpl. apply andb_true_r. Qed.

(** One more session, under another token, changes no look-up. *)
Lemma session_lookup_frame st st' s h :
  collection st' "session" = collection st "session" ++ [s] ->
  get s "token" <> VStr (bearer_token h) ->
  session_lookup st' h = session_lookup st h.
Proof.
  intros Hs Hne. unfold session_lookup, get_documents.
  rewrite Hs, List.filter_app. cbn [List.filter].
  rewrite token_filter, bool_decide_eq_false_2 by exact Hne.
  by rewrite app_nil_r.
Qed.

(** X1. Expiry is monotone in time: a request that resolves at some time
    resolves to the same user at every earlier time, and a request turned
    away as expired stays expired at every later time. *)
Theorem X1_expiry_monotone st now now' authorization :
  now <= now' ->
  (forall u, get_current_user st now' authorization = Ok u ->
             get_current_user st now authorization = Ok u) /\
  (get_current_user st now authorization = Raise SessionExpired ->
   get_current_user st now' authorization = Raise SessionExpired).
Proof.
  intros Hle.
  destruct authorization as [[| c cs] |]; try (split; [discriminate | done]).
  rewrite !get_current_user_unfold by discriminate.
  destruct (session_lookup st (c :: cs)) as [| sess rest];
    [split; [discriminate | done] |].
  destruct (session_expiry sess) as [e |]; simpl;
    [| split; [discriminate | done]].
  destruct (Z.ltb_spec e now'), (Z.ltb_spec e now); try lia;
    split; try discriminate; done.
Qed.

Lemma X1_witness :
  get_current_user ann_store 1000 (Some (Py.lit "Bearer tok1"))
    = Ok (delete "password_hash" ann_user).
Proof.
  assert (H : get_current_user ann_store 605800 (Some (Py.lit "Bearer tok1"))
              = Ok (delete "password_hash" ann_user)) by compute_done.
  exact (proj1 (X1_expiry_monotone ann_store 1000 605800
                  (Some (Py.lit "Bearer tok1")) ltac:(lia)) _ H).
Defined.

(** X2. Logging in adds a session and touches nothing else: the reply
    carries the token drawn, the new session expires [SESSION_TTL_SECONDS]
    after the login, users and scores stay as they were, and every header
    whose token is not the new one resolves exactly as before, so earlier
    sessions of the same user stay valid. *)
Theorem X2_login_is_additive salt st now tok payload st' reply :
  login salt st now tok payload = Ok (st', reply) ->
  reply_token reply = tok /\
  (exists s, collection st' "session" = collection st "session" ++ [s] /\
             get s "token" = VStr tok /\
             s !! "expires_at" = Some (VInt (now + 604800))) /\
  collection st' "flexuser" = collection st "flexuser" /\
  collection st' "score" = collection st "score" /\
  (forall now' h, bearer_token h <> tok ->
     get_current_user st' now' (Some h) = get_current_user st now' (Some h)).
Proof.
  intros Hlogin.
  assert (Hexp : exists s, collection st' "session" = collection st "session" ++ [s]
                           /\ get s "token" = VStr tok
                           /\ s !! "expires_at" = Some (VInt (now + 604800))).
  { unfold login in Hlogin.
    destruct (get_documents st "flexuser" _ _) as [| user rest];
      [discriminate |].
    destruct (verify_password salt (login_password payload) _) as [[|] |];
      simpl in Hlogin; try discriminate.
    injection Hlogin as <- <-. eexists. split; [| split].
    - unfold collection. simpl. rewrite lookup_insert. simpl. reflexivity.
    - reflexivity.
    - reflexivity. }
  apply login_ok in Hlogin
    as (user & rest & s & _ & _ & Hu & Hs & Hsc & Ht & Hrt & _).
  split; [exact Hrt |]. split; [exact Hexp |].
  split; [exact Hu |]. split; [exact Hsc |].
  intros now' h Hne.
  destruct h as [| c cs]; [reflexivity |].
  rewrite !get_current_user_unfold by discriminate.
  rewrite (session_lookup_frame st st' s (c :: cs) Hs)
    by (rewrite Ht; congruence).
  destruct (session_lookup st (c :: cs)) as [| sess others]; [reflexivity |].
  by rewrite (find_user_ext st st' sess Hu).
Qed.

(** Ann logs in again: her first token still resolves. *)
Lemma X2_witness :
  exists st' reply,
    login default_salt ann_store 2000 (Py.lit "tok2")
      {| login_email := Py.lit "ann@flex.io";
         login_password := Py.lit "secret" |} = Ok (st', reply) /\
    reply_token reply = Py.lit "tok2" /\
    get_current_user st' 3000 (Some (Py.lit "Bearer tok1"))
      = get_current_user ann_store 3000 (Some (Py.lit "Bearer tok1")).
Proof.
  destruct (succeeds_ok
              (login default_salt ann_store 2000 (Py.lit "tok2")
                 {| login_email := Py.lit "ann@flex.io";
                    login_password := Py.lit "secret" |}))
    as [[st' reply] E]; [compute_done |].
  exists st', reply. split; [exact E |].
  destruct (X2_login_is_additive _ _ _ _ _ _ _ E) as (Ht & _ & _ & _ & Hframe).
  split; [exact Ht | apply Hframe; compute_done].
Defined.

(** X3. Submitting a score: the authentication failure, if any, is the
    answer, whatever the value; for an authenticated user a negative value
    is refused with InvalidScoreValue and nothing is written, and a value
    from 0 up appends exactly one score document holding the value, the
    user's display name as it is now and the string form of the user's id;
    users and sessions are not touched. *)
Theorem X3_submit_score st now authorization v :
  (forall e, get_current_user st now authorization = Raise e ->
             submit_score st now authorization v = Raise e) /\
  (forall user, get_current_user st now authorization = Ok user ->
     (v < 0 -> submit_score st now authorization v = Raise InvalidScoreValue) /\
     (0 <= v ->
        exists st',
          submit_score st now authorization v = Ok st' /\
          collection st' "score" =
            collection st "score" ++
              [<["_id" := VOid (next_oid st)]>
                 (list_to_map
                    [("user_id", VStr (py_str (get user "_id")));
                     ("display_name", get user "display_name");
                     ("value", VInt v)])] /\
          collection st' "flexuser" = collection st "flexuser" /\
          collection st' "session" = collection st "session")).
Proof.
  unfold submit_score. split.
  - intros e ->. reflexivity.
  - intros user ->. cbn. split.
    + intros Hneg. destruct (Z.ltb_spec v 0); [reflexivity | lia].
    + intros Hpos. destruct (Z.ltb_spec v 0); [lia |].
      eexists. split; [reflexivity |].
      unfold collection. simpl. rewrite !lookup_insert. simpl. repeat split.
Qed.

(** Ann submits 0, then -1; without a header the request is a
    MissingToken even for -1. *)
Lemma X3_witness :
  succeeds (submit_score ann_store 1000 (Some (Py.lit "Bearer tok1")) 0) = true /\
  submit_score ann_store 1000 (Some (Py.lit "Bearer tok1")) (-1)
    = Raise InvalidScoreValue /\
  submit_score ann_store 1000 None (-1) = Raise MissingToken.
Proof.
  destruct (X3_submit_score ann_store 1000 (Some (Py.lit "Bearer tok1")) 0)
    as [_ H0].
  destruct (X3_submit_score ann_store 1000 (Some (Py.lit "Bearer tok1")) (-1))
    as [_ H1].
  destruct (X3_submit_score ann_store 1000 None (-1)) as [H2 _].
  assert (Hann : get_current_user ann_store 1000 (Some (Py.lit "Bearer tok1"))
                 = Ok (delete "password_hash" ann_user)) by compute_done.
  split; [| split].
  - destruct (H0 _ Hann) as [_ Hok]. destruct Hok as (st' & -> & _); [lia |].
    reflexivity.
  - destruct (H1 _ Hann) as [Hneg _]. apply Hneg. lia.
  - apply H2. reflexivity.
Defined.

(** *** Registration, then the other handlers *)

Lemma stored_session_fields oid user_id tok email expires_at :
  get (stored_session oid user_id tok email expires_at) "token" = VStr tok /\
  get (stored_session oid user_id tok email expires_at) "user_id" = user_id /\
  get (stored_session oid user_id tok email expires_at) "email" = email /\
  session_expiry (stored_session oid user_id tok email expires_at)
    = Some expires_at.
Proof. repeat split. Qed.

Lemma stored_user_fields oid payload ph :
  get (stored_user oid payload ph) "_id" = VOid oid /\
  get (stored_user oid payload ph) "email" = VStr (reg_email payload) /\
  get_or (stored_user oid payload ph) "password_hash" (VStr []) = VStr ph.
Proof. repeat split. Qed.

(** The two documents a successful [register] writes. *)
Lemma register_writes salt st now tok payload st' reply :
  register salt st now tok payload = Ok (st', reply) ->
  exists ph,
    hash_password salt (reg_password payload) = Some ph /\
    List.filter (matches [("email", Is (VStr (reg_email payload)))])
      (collection st "flexuser") = [] /\
    collection st' "flexuser" =
      collection st "flexuser" ++ [stored_user (next_oid st) payload ph] /\
    collection st' "session" =
      collection st "session" ++
        [stored_session (next_oid st + 1) (VStr (py_str (VOid (next_oid st))))
           tok (VStr (reg_email payload)) (now + 604800)] /\
    reply_user reply !! "_id" = Some (VStr (py_str (VOid (next_oid st)))).
Proof.
  unfold register. intros H.
  destruct (get_documents st "flexuser" _ _) eqn:Hq; [| discriminate].
  destruct (hash_password salt (reg_password payload)) as [ph |] eqn:Hh;
    [| discriminate].
  simpl in H. injection H as <- <-.
  exists ph. split; [reflexivity |]. split.
  { unfold get_documents in Hq. cbv beta zeta in Hq.
    exact (proj1 (firstn_one_nil _) Hq). }
  unfold collection. simpl. rewrite !lookup_insert. simpl. repeat split.
Qed.

Lemma filter_none {A} (f : A -> bool) (l : list A) :
  Forall (fun x => f x = false) l -> List.filter f l = [].
Proof. apply filter_nil_iff. Qed.

(** No look-up by id answers and the session has an email: the user is
    the one the email finds. *)
Lemma find_user_by_email st sess :
  users_by_id_eq st sess = [] ->
  truthy (get sess "email") = true ->
  find_user st sess = users_by_email st sess.
Proof.
  intros Hid Hem. rewrite find_user_chain.
  change (users_by_id st sess) with (users_by_id_eq st sess).
  rewrite Hid, Hem.
  cbn [first_nonempty]. by destruct (users_by_email st sess).
Qed.

(** Stores built by the handlers keep native identifiers on users. *)
Lemma issued_ids_native salt st : issued salt st -> ids_native st.
Proof.
  unfold ids_native.
  induction 1 as [| st now tok p st' r _ IH Htok Hreg
                  | st now tok p st' r _ IH Htok Hlog
                  | st now a v st' _ IH Hsub].
  - constructor.
  - apply register_writes in Hreg as (ph & _ & _ & Hu & _).
    rewrite Hu. apply Forall_app. split; [assumption |].
    constructor; [by eexists | constructor].
  - apply login_ok in Hlog as (user & rest & s & _ & _ & Hu & _).
    by rewrite Hu.
  - apply submit_score_ok in Hsub as (user & d & _ & _ & Hu & _).
    by rewrite Hu.
Qed.

(** X4. A registration can be used at once: when the token drawn is free
    of white space and carried by no stored session, and the email is not
    empty, the header ["Bearer <token>"] resolves, on the store [register]
    leaves, to the user just stored (without the password hash) up to and
    including [SESSION_TTL_SECONDS] after the registration, and is turned
    away as expired from the next second on. The user is found by the
    session's email: its [user_id] is a string and matches no native
    [_id]. *)
Theorem X4_register_then_resolve salt st now tok payload st' reply :
  register salt st now tok payload = Ok (st', reply) ->
  ids_native st ->
  Forall (fun s : doc => get s "token" <> VStr tok) (collection st "session") ->
  no_space tok ->
  reg_email payload <> [] ->
  exists ph,
    hash_password salt (reg_password payload) = Some ph /\
    (forall now', now' <= now + 604800 ->
       get_current_user st' now' (Some (Py.lit "Bearer " ++ tok))
         = Ok (delete "password_hash" (stored_user (next_oid st) payload ph))) /\
    (forall now', now + 604800 < now' ->
       get_current_user st' now' (Some (Py.lit "Bearer " ++ tok))
         = Raise SessionExpired).
Proof.
  intros Hreg Hids Hfresh Hns Hemail.
  apply register_writes in Hreg as (ph & Hph & Hnone & Hu & Hs & _).
  exists ph. split; [exact Hph |].
  set (u := stored_user (next_oid st) payload ph) in *.
  set (s := stored_session (next_oid st + 1)
              (VStr (py_str (VOid (next_oid st)))) tok
              (VStr (reg_email payload)) (now + 604800)) in *.
  destruct (stored_session_fields (next_oid st + 1)
              (VStr (py_str (VOid (next_oid st)))) tok
              (VStr (reg_email payload)) (now + 604800))
    as (Htok & Huid & Hem & Hexp).
  fold s in Htok, Huid, Hem, Hexp.
  destruct (stored_user_fields (next_oid st) payload ph) as (Hid & Hmail & _).
  fold u in Hid, Hmail.
  destruct (bearer_token_no_space tok Hns) as [Hbt _].
  assert (Hlook : session_lookup st' (Py.lit "Bearer " ++ tok) = [s]).
  { unfold session_lookup, get_documents. rewrite Hbt, Hs, List.filter_app.
    rewrite (filter_none _ (collection st "session")).
    - cbn [List.filter app]. rewrite token_filter, Htok.
      by rewrite bool_decide_eq_true_2.
    - eapply Forall_impl; [exact Hfresh |]. intros s0 Hs0. cbv beta in Hs0.
      rewrite token_filter. by apply bool_decide_eq_false_2. }
  assert (Hfind : find_user st' s = [u]).
  { rewrite find_user_by_email.
    - unfold users_by_email, get_documents. rewrite Hem, Hu, List.filter_app.
      rewrite Hnone. cbn [List.filter app]. rewrite token_filter, Hmail.
      by rewrite bool_decide_eq_true_2.
    - unfold users_by_id_eq, get_documents. rewrite Huid, Hu.
      apply firstn_one_nil, filter_none, Forall_app. split.
      + eapply Forall_impl; [exact Hids |]. intros u0 [o Ho].
        unfold matches. simpl. rewrite Ho.
        rewrite bool_decide_eq_false_2; [reflexivity | discriminate].
      + constructor; [| constructor]. unfold matches. simpl. rewrite Hid.
        rewrite bool_decide_eq_false_2; [reflexivity | discriminate].
    - rewrite Hem. simpl. by destruct (reg_email payload). }
  assert (Hne : Py.lit "Bearer " ++ tok <> []) by (rewrite lit_bearer; discriminate).
  split; intros now' Hnow';
    rewrite (get_current_user_live st' now' _ s [] (now + 604800) Hne Hlook Hexp).
  - destruct (Z.ltb_spec (now + 604800) now'); [lia |]. by rewrite Hfind.
  - destruct (Z.ltb_spec (now + 604800) now'); [reflexivity | lia].
Qed.

(** Ann, registered at 1000 on the empty store: valid through 605800. *)
Lemma X4_witness :
  succeeds (get_current_user ann_store 605800 (Some (Py.lit "Bearer " ++ Py.lit "tok1")))
    = true /\
  get_current_user ann_store 605801 (Some (Py.lit "Bearer " ++ Py.lit "tok1"))
    = Raise SessionExpired.
Proof.
  unfold ann_store.
  destruct (succeeds_ok
              (register default_salt empty_store 1000 (Py.lit "tok1") ann))
    as [[st' reply] E]; [compute_done |].
  rewrite E.
  destruct (X4_register_then_resolve default_salt empty_store 1000
              (Py.lit "tok1") ann st' reply E)
    as (ph & _ & Hok & Hexpired).
  - constructor.
  - constructor.
  - compute_done.
  - discriminate.
  - split; [rewrite Hok by lia; reflexivity | apply Hexpired; lia].
Defined.

(** X5. A registered user can log in: on the store a successful [register]
    leaves, [login] with the same email and password succeeds, returning
    the token drawn and a view with the same [_id] as the registration's,
    the email, and the display name as stored (stripped); with a password
    of another digest it fails with InvalidCredentials. *)
Theorem X5_register_then_login salt st now tok payload st' reply :
  register salt st now tok payload = Ok (st', reply) ->
  (forall now2 tok2,
     exists st'' reply2,
       login salt st' now2 tok2
         {| login_email := reg_email payload;
            login_password := reg_password payload |} = Ok (st'', reply2) /\
       reply_token reply2 = tok2 /\
       reply_user reply2 !! "_id" = reply_user reply !! "_id" /\
       reply_user reply2 !! "email" = Some (VStr (reg_email payload)) /\
       reply_user reply2 !! "display_name"
         = Some (VStr (Py.strip (reg_display_name payload)))) /\
  (forall now2 tok2 pw h h',
     hash_password salt pw = Some h ->
     hash_password salt (reg_password payload) = Some h' ->
     h <> h' ->
     login salt st' now2 tok2
       {| login_email := reg_email payload; login_password := pw |}
       = Raise InvalidCredentials).
Proof.
  intros Hreg.
  apply register_writes in Hreg as (ph & Hph & Hnone & Hu & _ & Hrid).
  assert (Hq : get_documents st' "flexuser"
                 [("email", Is (VStr (reg_email payload)))] (Some 1%nat)
               = [stored_user (next_oid st) payload ph]).
  { unfold get_documents. rewrite Hu, List.filter_app, Hnone.
    cbn [List.filter app]. rewrite token_filter.
    by rewrite bool_decide_eq_true_2. }
  split.
  - intros now2 tok2. unfold login. cbn [login_email login_password].
    rewrite Hq. unfold verify_password. rewrite Hph. cbn.
    rewrite bool_decide_eq_true_2 by reflexivity. cbn.
    eexists _, _. split; [reflexivity |]. cbn [reply_token reply_user].
    rewrite Hrid. repeat split.
  - intros now2 tok2 pw h h' Hh Hh' Hne. unfold login.
    cbn [login_email login_password].
    rewrite Hq.
    destruct (stored_user_fields (next_oid st) payload ph) as (_ & _ & Hpw).
    rewrite Hpw. unfold verify_password. rewrite Hh. cbn.
    rewrite Hph in Hh'. injection Hh' as <-.
    rewrite bool_decide_eq_false_2 by congruence. reflexivity.
Qed.

(** Ann logs in with her password and is refused with another. *)
Lemma X5_witness :
  succeeds (login default_salt ann_store 2000 (Py.lit "tok2")
              {| login_email := Py.lit "ann@flex.io";
                 login_password := Py.lit "secret" |}) = true /\
  login default_salt ann_store 2000 (Py.lit "tok2")
    {| login_email := Py.lit "ann@flex.io";
       login_password := Py.lit "Secret" |} = Raise InvalidCredentials.
Proof.
  unfold ann_store.
  destruct (succeeds_ok
              (register default_salt empty_store 1000 (Py.lit "tok1") ann))
    as [[st' reply] E]; [compute_done |].
  rewrite E.
  destruct (X5_register_then_login default_salt empty_store 1000
              (Py.lit "tok1") ann st' reply E) as [Hok Hbad].
  split.
  - destruct (Hok 2000 (Py.lit "tok2")) as (st'' & reply2 & Hlogin & _).
    change (Py.lit "ann@flex.io") with (reg_email ann).
    change (Py.lit "secret") with (reg_password ann).
    by rewrite Hlogin.
  - change (Py.lit "ann@flex.io") with (reg_email ann).
    apply (Hbad 2000 (Py.lit "tok2") (Py.lit "Secret")
             (default [] (hash_password default_salt (Py.lit "Secret")))
             (default [] (hash_password default_salt (reg_password ann))));
      compute_done.
Defined.

(** X6. An email registers once: on the store a successful [register]
    leaves, every further registration under the same email fails with
    DuplicateEmail, whatever the name, password and token. *)
Theorem X6_register_twice salt st now tok payload st' reply :
  register salt st now tok payload = Ok (st', reply) ->
  forall now2 tok2 payload2,
    reg_email payload2 = reg_email payload ->
    register salt st' now2 tok2 payload2 = Raise DuplicateEmail.
Proof.
  intros Hreg now2 tok2 payload2 Hsame.
  apply register_writes in Hreg as (ph & _ & Hnone & Hu & _).
  unfold register. rewrite Hsame.
  assert (Hq : get_documents st' "flexuser"
                 [("email", Is (VStr (reg_email payload)))] (Some 1%nat)
               = [stored_user (next_oid st) payload ph]).
  { unfold get_documents. rewrite Hu, List.filter_app, Hnone.
    cbn [List.filter app]. rewrite token_filter.
    by rewrite bool_decide_eq_true_2. }
  by rewrite Hq.
Qed.

(** Ann cannot register a second time. *)
Lemma X6_witness :
  register default_salt ann_store 2000 (Py.lit "tok2")
    {| reg_email := Py.lit "ann@flex.io";
       reg_display_name := Py.lit "Other";
       reg_password := Py.lit "pw" |} = Raise DuplicateEmail.
Proof.
  unfold ann_store.
  destruct (succeeds_ok
              (register default_salt empty_store 1000 (Py.lit "tok1") ann))
    as [[st' reply] E]; [compute_done |].
  rewrite E.
  exact (X6_register_twice default_salt empty_store 1000 (Py.lit "tok1") ann
           st' reply E 2000 (Py.lit "tok2")
           {| reg_email := Py.lit "ann@flex.io";
              reg_display_name := Py.lit "Other";
              reg_password := Py.lit "pw" |} eq_refl).
Defined.

(** *** Logging in *)

Lemma hex_digits_length k n acc :
  length (Py.hex_digits k n acc) = (k + length acc)%nat.
Proof.
  revert n acc. induction k as [| k IH]; intros n acc; [reflexivity |].
  cbn [Py.hex_digits]. rewrite IH. simpl. lia.
Qed.

Lemma hex_digits_alphabet k n acc :
  Forall is_hex acc -> Forall is_hex (Py.hex_digits k n acc).
Proof.
  revert n acc. induction k as [| k IH]; intros n acc Hacc; [exact Hacc |].
  cbn [Py.hex_digits]. apply IH. constructor; [| exact Hacc].
  unfold is_hex, Py.hex_char.
  pose proof (Z.mod_pos_bound n 16 ltac:(lia)).
  destruct (Z.ltb_spec (n mod 16) 10); lia.
Qed.

(** The hash of a password is 64 lower-case hexadecimal characters. *)
Lemma hash_password_format salt p h :
  hash_password salt p = Some h -> length h = 64%nat /\ Forall is_hex h.
Proof.
  unfold hash_password. destruct (Py.encode_utf8 (salt ++ p)); [| discriminate].
  intros [= <-]. unfold SHA256.hexdigest. split.
  - by rewrite hex_digits_length.
  - apply hex_digits_alphabet. constructor.
Qed.

(** X7. [login] answers an unknown email and a wrong password with the same
    InvalidCredentials, and it succeeds only when the first user under the
    email stores, as a string, the hash of the password given: 64
    hexadecimal characters. A user document without [password_hash], or
    with one that is no string, cannot log in. *)
Theorem X7_login_credentials salt st now tok payload :
  (get_documents st "flexuser"
     [("email", Is (VStr (login_email payload)))] (Some 1%nat) = [] ->
   login salt st now tok payload = Raise InvalidCredentials) /\
  (forall user rest h,
     get_documents st "flexuser"
       [("email", Is (VStr (login_email payload)))] (Some 1%nat) = user :: rest ->
     hash_password salt (login_password payload) = Some h ->
     user !! "password_hash" <> Some (VStr h) ->
     login salt st now tok payload = Raise InvalidCredentials) /\
  (forall st' reply,
     login salt st now tok payload = Ok (st', reply) ->
     exists user rest h,
       get_documents st "flexuser"
         [("email", Is (VStr (login_email payload)))] (Some 1%nat) = user :: rest /\
       hash_password salt (login_password payload) = Some h /\
       user !! "password_hash" = Some (VStr h) /\
       length h = 64%nat /\ Forall is_hex h).
Proof.
  unfold login.
  destruct (get_documents st "flexuser" _ _) as [| user rest].
  { split; [reflexivity |]. split; [discriminate | discriminate]. }
  split; [discriminate |].
  unfold verify_password.
  destruct (hash_password salt (login_password payload)) as [h |] eqn:Hh;
    cbn; [| split; discriminate].
  destruct (hash_password_format _ _ _ Hh) as [Hlen Hhex].
  assert (Hstored : bool_decide (VStr h = get_or user "password_hash" (VStr []))
                    = true <-> user !! "password_hash" = Some (VStr h)).
  { rewrite bool_decide_eq_true. unfold get_or.
    destruct (user !! "password_hash") as [v |]; simpl.
    - split; congruence.
    - split; [| discriminate]. intros [= ->]. discriminate. }
  destruct (bool_decide (VStr h = get_or user "password_hash" (VStr [])));
    cbn; split.
  - intros user' rest' h' [= <- <-] [= <-] Hne. exfalso. apply Hne.
    by apply Hstored.
  - intros st' reply _. exists user, rest, h. repeat split; try done.
    by apply Hstored.
  - reflexivity.
  - discriminate.
Qed.

(** On Ann's store: an unknown email and a wrong password get the same
    answer. *)
Lemma X7_witness :
  login default_salt ann_store 2000 (Py.lit "tok2")
    {| login_email := Py.lit "bob@flex.io";
       login_password := Py.lit "secret" |} = Raise InvalidCredentials /\
  login default_salt ann_store 2000 (Py.lit "tok2")
    {| login_email := Py.lit "ann@flex.io";
       login_password := Py.lit "guess" |} = Raise InvalidCredentials.
Proof.
  split.
  - apply (proj1 (X7_login_credentials default_salt ann_store 2000
                    (Py.lit "tok2") _)).
    compute_done.
  - apply (proj1 (proj2 (X7_login_credentials default_salt ann_store 2000
                           (Py.lit "tok2") _))
             ann_user []
             (default [] (hash_password default_salt (Py.lit "guess"))));
      compute_done.
Defined.

(** *** What a resolved request stands on *)

Lemma firstn_one_cons {A} (l : list A) x rest :
  firstn 1 l = x :: rest -> exists l', l = x :: l' /\ rest = [].
Proof. destruct l; simpl; [discriminate |]. intros [= <- <-]. eauto. Qed.

Lemma get_documents_first st name flt d rest :
  get_documents st name flt (Some 1%nat) = d :: rest ->
  d ∈ collection st name /\ matches flt d = true.
Proof.
  unfold get_documents. intros H.
  apply firstn_one_cons in H as (l' & Hl & _).
  assert (Hin : In d (List.filter (matches flt) (collection st name)))
    by (rewrite Hl; by left).
  apply filter_In in Hin as [Hin Hm]. split; [| exact Hm].
  by apply list_elem_of_In.
Qed.

Lemma find_user_first st sess user rest :
  find_user st sess = user :: rest ->
  user ∈ collection st "flexuser" /\
  (get user "_id" = get sess "user_id" \/
   (truthy (get sess "email") = true /\ get user "email" = get sess "email")).
Proof.
  rewrite find_user_chain. cbn [first_nonempty].
  change (users_by_id st sess) with (users_by_id_eq st sess).
  destruct (users_by_id_eq st sess) as [| u us] eqn:Hid.
  - destruct (truthy (get sess "email")) eqn:Hem.
    + destruct (users_by_email st sess) as [| u us] eqn:Hmail;
        [discriminate |].
      intros [= <- <-]. apply get_documents_first in Hmail as [Hin Hm].
      split; [exact Hin |]. right. split; [reflexivity |].
      unfold matches in Hm. simpl in Hm. rewrite andb_true_r in Hm.
      by apply bool_decide_eq_true in Hm.
    + discriminate.
  - intros [= <- <-]. apply get_documents_first in Hid as [Hin Hm].
    split; [exact Hin |]. left.
    unfold matches in Hm. simpl in Hm. rewrite andb_true_r in Hm.
    by apply bool_decide_eq_true in Hm.
Qed.

(** X8. A request resolves only on stored data: when [get_current_user]
    returns a user, the header was present and not empty, a stored session
    carries exactly the token looked up and has not expired, and the user
    returned is a stored user document, minus its password hash, that the
    session names by [_id] or, with a truthy session email, by email. *)
Theorem X8_resolve_sound st now authorization u :
  get_current_user st now authorization = Ok u ->
  exists h sess user e,
    authorization = Some h /\ h <> [] /\
    sess ∈ collection st "session" /\
    get sess "token" = VStr (bearer_token h) /\
    session_expiry sess = Some e /\ now <= e /\
    user ∈ collection st "flexuser" /\
    (get user "_id" = get sess "user_id" \/
     (truthy (get sess "email") = true /\
      get user "email" = get sess "email")) /\
    u = delete "password_hash" user.
Proof.
  destruct authorization as [[| c cs] |]; try discriminate.
  rewrite get_current_user_unfold by discriminate.
  destruct (session_lookup st (c :: cs)) as [| sess rest] eqn:Hlook;
    [discriminate |].
  destruct (session_expiry sess) as [e |] eqn:He; simpl; [| discriminate].
  destruct (Z.ltb_spec e now); [discriminate |].
  destruct (find_user st sess) as [| user others] eqn:Hfind; [discriminate |].
  intros [= <-].
  apply get_documents_first in Hlook as [Hin Hm].
  rewrite token_filter in Hm. apply bool_decide_eq_true in Hm.
  apply find_user_first in Hfind as [Huin Hnamed].
  exists (c :: cs), sess, user, e.
  repeat split; done.
Qed.

(** Ann's request stands on her stored session and user document. *)
Lemma X8_witness :
  exists h sess user,
    sess ∈ collection ann_store "session" /\
    get sess "token" = VStr (bearer_token h) /\
    user ∈ collection ann_store "flexuser".
Proof.
  destruct (X8_resolve_sound ann_store 1000 (Some (Py.lit "Bearer tok1"))
              (delete "password_hash" ann_user))
    as (h & sess & user & e & _ & _ & Hs & Ht & _ & _ & Hu & _);
    [compute_done |].
  exists h, sess, user. auto.
Defined.

(** *** The token looked up *)

Lemma lstrip_head s c r : Py.lstrip s = c :: r -> Py.isspace c = false.
Proof.
  induction s as [| a s IH]; [discriminate |].
  simpl. destruct (Py.isspace a) eqn:E; [exact IH |]. by intros [= <- _].
Qed.

Lemma lstrip_suffix s : exists t, s = t ++ Py.lstrip s.
Proof.
  induction s as [| a s [t IH]]; [by exists [] |].
  simpl. destruct (Py.isspace a).
  - exists (a :: t). simpl. by f_equal.
  - by exists [].
Qed.

Lemma rstrip_prefix s : exists t, s = Py.rstrip s ++ t.
Proof.
  unfold Py.rstrip. destruct (lstrip_suffix (rev s)) as [t Ht].
  exists (rev t). rewrite <- rev_app_distr, <- Ht. by rewrite rev_involutive.
Qed.

Lemma strip_ends s c r :
  Py.strip s = c :: r ->
  Py.isspace c = false /\ Py.isspace (List.last (c :: r) c) = false.
Proof.
  unfold Py.strip. intros H. split.
  - destruct (rstrip_prefix (Py.lstrip s)) as [t Ht].
    rewrite H in Ht. simpl in Ht. by apply lstrip_head in Ht.
  - unfold Py.rstrip in H.
    destruct (Py.lstrip (rev (Py.lstrip s))) as [| a l] eqn:E;
      [discriminate |].
    apply lstrip_head in E. rewrite <- H. simpl rev.
    by rewrite last_last.
Qed.

(** X9. The session a request selects carries exactly the token looked up,
    and that token never begins or ends with white space: a stored session
    whose token does is selected by no request. *)
Theorem X9_token_has_no_outer_space st h sess rest t :
  session_lookup st h = sess :: rest ->
  get sess "token" = VStr t ->
  t = bearer_token h /\
  forall c r, t = c :: r ->
    Py.isspace c = false /\ Py.isspace (List.last t c) = false.
Proof.
  intros Hlook Ht.
  apply get_documents_first in Hlook as [_ Hm].
  rewrite token_filter, Ht in Hm. apply bool_decide_eq_true in Hm.
  injection Hm as ->. split; [reflexivity |].
  intros c r Hcr. rewrite Hcr.
  exact (strip_ends (Py.replace (Py.lit "Bearer ") [] h) c r Hcr).
Qed.

Lemma X9_witness :
  Py.isspace (hd 32 (Py.lit "tok1")) = false.
Proof.
  destruct (X9_token_has_no_outer_space ann_store (Py.lit "  Bearer tok1  ")
              (hd ∅ (collection ann_store "session")) [] (Py.lit "tok1"))
    as [_ H]; [compute_done | compute_done |].
  by destruct (H 116 (Py.lit "ok1") eq_refl).
Defined.

(** *** The leaderboard on stored scores *)

(** Four players register and submit 50, 80, 80 and 10 in that order. *)
Example played_board :
  top_scores played_store 3 = Ok [entry "B" 80; entry "C" 80; entry "A" 50] /\
  length (collection played_store "score") = 4%nat.
Proof. split; compute_done. Qed.

Lemma top_scores_ranked st limit :
  Forall (fun d => is_Some (score_key d)) (collection st "score") ->
  exists ranked out,
    ranked ≡ₚ collection st "score" /\
    top_scores st limit = Ok out /\
    Forall2 (fun d e => serialize_score d = Some e)
            (Py.slice_to ranked limit) out.
Proof.
  intros Hkeys.
  destruct (keyed_docs _ Hkeys) as (keyed & Hm & Hsnd & _).
  set (ranked := map snd (Py.sorted_desc keyed)).
  assert (Hperm : ranked ≡ₚ collection st "score").
  { unfold ranked. rewrite <- Hsnd. apply Permutation_map, sorted_desc_perm. }
  assert (Hds : docs_sorted (collection st "score") limit
                = Some (Py.slice_to ranked limit)).
  { unfold docs_sorted. rewrite Hm. reflexivity. }
  destruct (slice_to_firstn ranked limit) as (m & Hslice & _).
  assert (Hser : is_Some (mapM serialize_score (Py.slice_to ranked limit))).
  { apply mapM_is_Some. rewrite Hslice. apply Forall_take.
    rewrite Hperm. eapply Forall_impl; [exact Hkeys |].
    intros d [k Hk]. unfold compose, serialize_score. rewrite Hk. by eexists. }
  destruct Hser as [out Hout].
  exists ranked, out. split; [exact Hperm |]. split.
  - unfold top_scores. rewrite get_documents_all, Hds. cbn.
    rewrite Hout. reflexivity.
  - by apply mapM_Some_1.
Qed.

Lemma Forall2_elem_r {A B} (R : A -> B -> Prop) l k y :
  Forall2 R l k -> y ∈ k -> exists x, x ∈ l /\ R x y.
Proof.
  induction 1 as [| x y' l k Hxy _ IH]; intros Hy.
  - by apply elem_of_nil in Hy.
  - apply elem_of_cons in Hy as [-> | Hy].
    + exists x. split; [by left | exact Hxy].
    + destruct (IH Hy) as (x' & Hx' & HR). exists x'. split; [by right | exact HR].
Qed.

Lemma Forall2_elem_l {A B} (R : A -> B -> Prop) l k x :
  Forall2 R l k -> x ∈ l -> exists y, y ∈ k /\ R x y.
Proof.
  induction 1 as [| x' y l k Hxy _ IH]; intros Hx.
  - by apply elem_of_nil in Hx.
  - apply elem_of_cons in Hx as [-> | Hx].
    + exists y. split; [by left | exact Hxy].
    + destruct (IH Hx) as (y' & Hy' & HR). exists y'. split; [by right | exact HR].
Qed.

Lemma slice_to_subset {A} (l : list A) n x : x ∈ Py.slice_to l n -> x ∈ l.
Proof.
  destruct (slice_to_firstn l n) as (m & -> & _).
  rewrite <- (firstn_skipn m l) at 2. intros H. apply elem_of_app. by left.
Qed.

(** X10. How many entries the leaderboard returns: with [n] stored scores,
    all of convertible value, a limit [N >= 0] gives [min N n] entries and
    a negative limit gives [n + N] entries, none when that is negative. In
    particular [limit=0] gives the empty list and any limit from [n] up
    gives every score. *)
Theorem X10_top_scores_count st limit :
  Forall (fun d => is_Some (score_key d)) (collection st "score") ->
  exists out,
    top_scores st limit = Ok out /\
    Z.of_nat (length out) =
      if limit <? 0
      then Z.max 0 (Z.of_nat (length (collection st "score")) + limit)
      else Z.min limit (Z.of_nat (length (collection st "score"))).
Proof.
  intros Hkeys.
  destruct (top_scores_ranked st limit Hkeys) as (ranked & out & Hperm & Htop & Hout).
  exists out. split; [exact Htop |].
  apply Forall2_length in Hout. rewrite <- Hout.
  apply Permutation_length in Hperm. rewrite <- Hperm.
  unfold Py.slice_to. destruct (Z.ltb_spec limit 0); rewrite length_take; lia.
Qed.

Lemma board_scores_convert :
  Forall (fun d => is_Some (score_key d)) (collection board_store "score").
Proof.
  change (collection board_store "score")
    with [score_doc "A" 50; score_doc "B" 80; score_doc "C" 80; score_doc "D" 10].
  repeat constructor; by eexists.
Qed.

(** The example board: limit 0 gives nothing, limit -1 three entries. *)
Lemma X10_witness :
  (exists out, top_scores board_store 0 = Ok out /\ length out = 0%nat) /\
  (exists out, top_scores board_store (-1) = Ok out /\ length out = 3%nat).
Proof.
  split.
  - destruct (X10_top_scores_count board_store 0 board_scores_convert)
      as (out & Htop & Hlen).
    exists out. split; [exact Htop |]. simpl in Hlen. lia.
  - destruct (X10_top_scores_count board_store (-1) board_scores_convert)
      as (out & Htop & Hlen).
    exists out. split; [exact Htop |].
    change (collection board_store "score")
      with [score_doc "A" 50; score_doc "B" 80; score_doc "C" 80; score_doc "D" 10]
      in Hlen.
    simpl in Hlen. lia.
Defined.

(** X11. The leaderboard shows stored scores and nothing else: every entry
    returned is the rendering of a stored score document (its
    [display_name], or ["Player"] when it has none, and the [int] of its
    [value], or 0 when it has none), and with a limit not below the number
    of stored scores every stored score is rendered. *)
Theorem X11_top_scores_from_store st limit :
  Forall (fun d => is_Some (score_key d)) (collection st "score") ->
  exists out,
    top_scores st limit = Ok out /\
    (forall e, e ∈ out ->
       exists d v, d ∈ collection st "score" /\
         py_int (default (VInt 0) (d !! "value")) = Some v /\
         e = {| entry_name := default (VStr (Py.lit "Player")) (d !! "display_name");
                entry_value := v |}) /\
    (Z.of_nat (length (collection st "score")) <= limit ->
     forall d, d ∈ collection st "score" ->
       exists e, e ∈ out /\ serialize_score d = Some e).
Proof.
  intros Hkeys.
  destruct (top_scores_ranked st limit Hkeys) as (ranked & out & Hperm & Htop & Hout).
  exists out. split; [exact Htop |]. split.
  - intros e He.
    destruct (Forall2_elem_r _ _ _ _ Hout He) as (d & Hd & Hser).
    apply slice_to_subset in Hd. rewrite Hperm in Hd.
    unfold serialize_score, score_key, get_or in Hser.
    destruct (py_int (default (VInt 0) (d !! "value"))) as [v |] eqn:Hv;
      [| discriminate].
    injection Hser as <-. exists d, v. auto.
  - intros Hbig d Hd. rewrite <- Hperm in Hd.
    assert (Hall : Py.slice_to ranked limit = ranked).
    { unfold Py.slice_to. destruct (Z.ltb_spec limit 0); [lia |].
      apply firstn_all2. apply Permutation_length in Hperm. lia. }
    rewrite Hall in Hout.
    exact (Forall2_elem_l _ _ _ _ Hout Hd).
Qed.

Lemma X11_witness :
  exists d, d ∈ collection board_store "score" /\
            serialize_score d = Some (entry "B" 80).
Proof.
  destruct (X11_top_scores_from_store board_store 3 board_scores_convert)
    as (out & Htop & Hfrom & _).
  assert (Hout : top_scores board_store 3
                 = Ok [entry "B" 80; entry "C" 80; entry "A" 50])
    by compute_done.
  rewrite Hout in Htop. injection Htop as <-.
  destruct (Hfrom (entry "B" 80)) as (d & v & Hd & Hv & He); [by left |].
  exists d. split; [exact Hd |].
  unfold serialize_score, score_key, get_or. rewrite Hv. simpl. by rewrite He.
Defined.

(** *** Stores built by the handlers *)

Lemma get_int_lookup (d : doc) (k : string) (v : Z) :
  get d k = VInt v -> d !! k = Some (VInt v).
Proof. unfold get. destruct (d !! k); simpl; [congruence | discriminate]. Qed.

Lemma issued_scores_valid salt st : issued salt st -> scores_valid st.
Proof.
  unfold scores_valid.
  induction 1 as [| st now tok p st' r _ IH Htok Hreg
                  | st now tok p st' r _ IH Htok Hlog
                  | st now a v st' _ IH Hsub].
  - constructor.
  - apply register_ok in Hreg as (_ & ph & u & s & _ & _ & _ & Hsc & _).
    by rewrite Hsc.
  - apply login_ok in Hlog as (user & rest & s & _ & _ & _ & _ & Hsc & _).
    by rewrite Hsc.
  - apply submit_score_ok in Hsub as (user & d & _ & Hv & _ & _ & Hsc & Hd & _).
    rewrite Hsc. apply Forall_app. split; [assumption |].
    constructor; [| constructor]. exists v. split; [| exact Hv].
    by apply get_int_lookup.
Qed.

Lemma ann_scored_issued : issued default_salt ann_scored.
Proof.
  unfold ann_scored.
  destruct (submit_score ann_store 1001 (Some (Py.lit "Bearer tok1")) 7)
    as [st |] eqn:E; [| apply ann_store_issued].
  eapply issued_score; [apply ann_store_issued | exact E].
Qed.

(** X12. On every store the handlers built (registrations, logins and score
    submissions from the empty store) the leaderboard answers for every
    limit, never with an error, and no entry has a negative value: the
    guard of [submit_score] keeps negative scores out of the store. *)
Theorem X12_leaderboard_of_issued_store salt st limit :
  issued salt st ->
  exists out,
    top_scores st limit = Ok out /\
    Forall (fun e => 0 <= entry_value e) out.
Proof.
  intros Hissued. apply issued_scores_valid in Hissued.
  unfold scores_valid in Hissued.
  assert (Hkeys : Forall (fun d => is_Some (score_key d)) (collection st "score")).
  { eapply Forall_impl; [exact Hissued |]. intros d (v & Hv & _).
    unfold score_key, get_or. rewrite Hv. by eexists. }
  destruct (top_scores_ranked st limit Hkeys) as (ranked & out & Hperm & Htop & Hout).
  exists out. split; [exact Htop |].
  apply Forall_forall. intros e He.
  destruct (Forall2_elem_r _ _ _ _ Hout He) as (d & Hd & Hser).
  apply slice_to_subset in Hd. rewrite Hperm in Hd.
  rewrite Forall_forall in Hissued. destruct (Hissued d Hd) as (v & Hv & Hpos).
  unfold serialize_score, score_key, get_or in Hser. rewrite Hv in Hser.
  injection Hser as <-. exact Hpos.
Qed.

Lemma X12_witness :
  exists out, top_scores ann_scored 10 = Ok out /\
              Forall (fun e => 0 <= entry_value e) out.
Proof.
  exact (X12_leaderboard_of_issued_store default_salt ann_scored 10
           ann_scored_issued).
Defined.

Example ann_scored_board :
  top_scores ann_scored 10 = Ok [entry "Ann" 7].
Proof. compute_done. Qed.

(** X13. A submitted score shows on the leaderboard: when the stored scores
    all convert, an authenticated user's submission of a value from 0 up
    succeeds, and the leaderboard of the store it leaves, asked for all
    entries, has an entry with that value under the user's display name as
    [get_current_user] returned it ([None] for a user without one: the
    ["Player"] default is for score documents lacking the key, which
    [submit_score] never writes). *)
Theorem X13_submit_then_top_scores st now authorization user v :
  get_current_user st now authorization = Ok user ->
  0 <= v ->
  Forall (fun d => is_Some (score_key d)) (collection st "score") ->
  exists st' out,
    submit_score st now authorization v = Ok st' /\
    top_scores st' (Z.of_nat (length (collection st' "score"))) = Ok out /\
    length out = S (length (collection st "score")) /\
    {| entry_name := get user "display_name"; entry_value := v |} ∈ out.
Proof.
  intros Hu Hv Hkeys.
  set (d := <["_id" := VOid (next_oid st)]>
              (list_to_map
                 [("user_id", VStr (py_str (get user "_id")));
                  ("display_name", get user "display_name");
                  ("value", VInt v)]) : doc).
  assert (Hsub : exists st', submit_score st now authorization v = Ok st' /\
                   collection st' "score" = collection st "score" ++ [d]).
  { unfold submit_score. rewrite Hu. cbn.
    destruct (Z.ltb_spec v 0); [lia |].
    eexists. split; [reflexivity |].
    unfold collection. simpl. rewrite lookup_insert. reflexivity. }
  destruct Hsub as (st' & Hsub & Hsc).
  assert (Hser : serialize_score d
                 = Some {| entry_name := get user "display_name";
                           entry_value := v |}) by reflexivity.
  assert (Hkeys' : Forall (fun d => is_Some (score_key d)) (collection st' "score")).
  { rewrite Hsc. apply Forall_app. split; [exact Hkeys |].
    constructor; [by exists v | constructor]. }
  destruct (top_scores_ranked st' (Z.of_nat (length (collection st' "score")))
              Hkeys') as (ranked & out & Hperm & Htop & Hout).
  assert (Hall : Py.slice_to ranked (Z.of_nat (length (collection st' "score")))
                 = ranked).
  { unfold Py.slice_to.
    destruct (Z.ltb_spec (Z.of_nat (length (collection st' "score"))) 0); [lia |].
    apply firstn_all2. apply Permutation_length in Hperm. lia. }
  rewrite Hall in Hout.
  exists st', out. split; [exact Hsub |]. split; [exact Htop |]. split.
  - apply Forall2_length in Hout. apply Permutation_length in Hperm.
    rewrite <- Hout, Hperm, Hsc, length_app. simpl. lia.
  - assert (Hd : d ∈ ranked).
    { rewrite Hperm, Hsc. apply elem_of_app. right. by left. }
    destruct (Forall2_elem_l _ _ _ _ Hout Hd) as (e & He & Hde).
    rewrite Hser in Hde. by injection Hde as <-.
Qed.

(** Ann's 7 is on the board. *)
Lemma X13_witness :
  exists st' out,
    submit_score ann_store 1001 (Some (Py.lit "Bearer tok1")) 7 = Ok st' /\
    top_scores st' (Z.of_nat (length (collection st' "score"))) = Ok out /\
    entry "Ann" 7 ∈ out.
Proof.
  destruct (X13_submit_then_top_scores ann_store 1001
              (Some (Py.lit "Bearer tok1"))
              (delete "password_hash" ann_user) 7)
    as (st' & out & Hsub & Htop & _ & Hin).
  - compute_done.
  - lia.
  - change (collection ann_store "score") with (@nil doc). constructor.
  - exists st', out. split; [exact Hsub |]. split; [exact Htop |].
    assert (Hname : get (delete "password_hash" ann_user) "display_name"
                    = VStr (Py.lit "Ann")) by compute_done.
    rewrite Hname in Hin. exact Hin.
Defined.

(** The session document a successful [login] writes. *)
Lemma login_writes salt st now tok payload st' reply :
  login salt st now tok payload = Ok (st', reply) ->
  exists user rest,
    get_documents st "flexuser"
      [("email", Is (VStr (login_email payload)))] (Some 1%nat) = user :: rest /\
    collection st' "flexuser" = collection st "flexuser" /\
    collection st' "session" =
      collection st "session" ++
        [stored_session (next_oid st) (VStr (py_str (get user "_id"))) tok
           (get user "email") (now + 604800)].
Proof.
  unfold login. intros H.
  destruct (get_documents st "flexuser" _ _) as [| user rest];
    [discriminate |].
  destruct (verify_password salt (login_password payload) _) as [[|] |];
    simpl in H; try discriminate.
  injection H as <- <-. exists user, rest. split; [reflexivity |].
  unfold collection. simpl. rewrite !lookup_insert. simpl. repeat split.
Qed.

(** X14. A login can be used at once: on a store whose users carry native
    identifiers, when the token drawn is free of white space and carried
    by no stored session, and the email is not empty, the header
    ["Bearer <token>"] resolves, on the store [login] leaves, to the user
    that logged in (the first stored under the email, without the password
    hash) up to and including [SESSION_TTL_SECONDS] after the login, and
    is turned away as expired from the next second on. *)
Theorem X14_login_then_resolve salt st now tok payload st' reply :
  login salt st now tok payload = Ok (st', reply) ->
  ids_native st ->
  Forall (fun s : doc => get s "token" <> VStr tok) (collection st "session") ->
  no_space tok ->
  login_email payload <> [] ->
  exists user rest,
    get_documents st "flexuser"
      [("email", Is (VStr (login_email payload)))] (Some 1%nat) = user :: rest /\
    (forall now', now' <= now + 604800 ->
       get_current_user st' now' (Some (Py.lit "Bearer " ++ tok))
         = Ok (delete "password_hash" user)) /\
    (forall now', now + 604800 < now' ->
       get_current_user st' now' (Some (Py.lit "Bearer " ++ tok))
         = Raise SessionExpired).
Proof.
  intros Hlogin Hids Hfresh Hns Hemail.
  apply login_writes in Hlogin as (user & rest & Hq & Hu & Hs).
  exists user, rest. split; [exact Hq |].
  set (s := stored_session (next_oid st) (VStr (py_str (get user "_id"))) tok
              (get user "email") (now + 604800)) in *.
  destruct (stored_session_fields (next_oid st)
              (VStr (py_str (get user "_id"))) tok
              (get user "email") (now + 604800))
    as (Htok & Huid & Hem & Hexp).
  fold s in Htok, Huid, Hem, Hexp.
  destruct (get_documents_first _ _ _ _ _ Hq) as [_ Hmail].
  rewrite token_filter in Hmail. apply bool_decide_eq_true in Hmail.
  destruct (bearer_token_no_space tok Hns) as [Hbt _].
  assert (Hlook : session_lookup st' (Py.lit "Bearer " ++ tok) = [s]).
  { unfold session_lookup, get_documents. rewrite Hbt, Hs, List.filter_app.
    rewrite (filter_none _ (collection st "session")).
    - cbn [List.filter app]. rewrite token_filter, Htok.
      by rewrite bool_decide_eq_true_2.
    - eapply Forall_impl; [exact Hfresh |]. intros s0 Hs0. cbv beta in Hs0.
      rewrite token_filter. by apply bool_decide_eq_false_2. }
  assert (Hfind : find_user st' s = user :: rest).
  { rewrite (find_user_ext st st' s Hu). rewrite find_user_by_email.
    - unfold users_by_email. rewrite Hem, Hmail. exact Hq.
    - unfold users_by_id_eq, get_documents. rewrite Huid.
      apply firstn_one_nil, filter_none.
      eapply Forall_impl; [exact Hids |]. intros u0 [o Ho].
      unfold matches. simpl. rewrite Ho.
      rewrite bool_decide_eq_false_2; [reflexivity | discriminate].
    - rewrite Hem, Hmail. simpl. by destruct (login_email payload). }
  assert (Hne : Py.lit "Bearer " ++ tok <> []) by (rewrite lit_bearer; discriminate).
  split; intros now' Hnow';
    rewrite (get_current_user_live st' now' _ s [] (now + 604800) Hne Hlook Hexp).
  - destruct (Z.ltb_spec (now + 604800) now'); [lia |]. by rewrite Hfind.
  - destruct (Z.ltb_spec (now + 604800) now'); [reflexivity | lia].
Qed.

(** Ann logs in at 2000 with a second token: valid through 606800. *)
Lemma X14_witness :
  exists st' reply,
    login default_salt ann_store 2000 (Py.lit "tok2")
      {| login_email := Py.lit "ann@flex.io";
         login_password := Py.lit "secret" |} = Ok (st', reply) /\
    succeeds (get_current_user st' 606800
                (Some (Py.lit "Bearer " ++ Py.lit "tok2"))) = true /\
    get_current_user st' 606801 (Some (Py.lit "Bearer " ++ Py.lit "tok2"))
      = Raise SessionExpired.
Proof.
  destruct (succeeds_ok
              (login default_salt ann_store 2000 (Py.lit "tok2")
                 {| login_email := Py.lit "ann@flex.io";
                    login_password := Py.lit "secret" |}))
    as [[st' reply] E]; [compute_done |].
  exists st', reply. split; [exact E |].
  destruct (X14_login_then_resolve _ _ _ _ _ _ _ E)
    as (user & rest & _ & Hok & Hexpired).
  - exact (issued_ids_native _ _ ann_store_issued).
  - compute_done.
  - compute_done.
  - discriminate.
  - split; [rewrite Hok by lia; reflexivity | apply Hexpired; lia].
Defined.

(** The sessions [register] and [login] write name their user by a string:
    stores built by the handlers meet the Session schema in this. *)
Lemma issued_user_ids_strings salt st : issued salt st -> user_ids_strings st.
Proof.
  unfold user_ids_strings.
  induction 1 as [| st now tok p st' r _ IH Htok Hreg
                  | st now tok p st' r _ IH Htok Hlog
                  | st now a v st' _ IH Hsub].
  - constructor.
  - apply register_writes in Hreg as (ph & _ & _ & _ & Hs & _).
    rewrite Hs. apply Forall_app. split; [assumption |].
    constructor; [by eexists | constructor].
  - apply login_writes in Hlog as (user & rest & _ & _ & Hs).
    rewrite Hs. apply Forall_app. split; [assumption |].
    constructor; [by eexists | constructor].
  - apply submit_score_ok in Hsub as (user & d & _ & _ & _ & Hs & _).
    by rewrite Hs.
Qed.
